(** * The Twig external scanner

    A shallow embedding of
    [src/internal/tree_sitter_grammars/twig/src/scanner.c]: the external
    scanner that the tree-sitter runtime calls to recognise HTML text,
    Twig content and Twig comments.

    The scanner drives a [TSLexer] owned by the runtime.  The lexer is
    modelled as a record over the list of code points that are still unread;
    the three [while] loops of the scanner are written with a fuel argument
    and the scan function supplies enough fuel for each of them, so that it
    always returns (proved at the end of the file). *)

From Stdlib Require Import Ascii String.
From Stdlib Require Import ZArith List Bool Lia Arith.
Import ListNotations.
Open Scope Z_scope.

(** ** Code points *)

Definition chr (a : ascii) : Z := Z.of_nat (nat_of_ascii a).
Arguments chr a%_char.

Definition text (s : string) : list Z := map chr (list_ascii_of_string s).
Arguments text s%_string.

Definition LANGLE : Z := Eval cbv in chr "<".
Definition LBRACE : Z := Eval cbv in chr "{".
Definition RBRACE : Z := Eval cbv in chr "}".
Definition PERCENT : Z := Eval cbv in chr "%".
Definition HASH : Z := Eval cbv in chr "#".

(** [iswspace] of <wctype.h> in the "C" locale: space, and the five
    controls from horizontal tab to carriage return. *)
Definition iswspace (c : Z) : bool :=
  (c =? 32) || ((9 <=? c) && (c <=? 13)).

(** ** Token kinds *)

(** [enum TokenType], in declaration order. *)
Inductive TokenType : Set :=
| CONTENT
| COMMENT
| HTML_CONTENT.

(** The integer value C gives to each enumerator. *)
Definition ordinal (t : TokenType) : nat :=
  match t with
  | CONTENT => 0
  | COMMENT => 1
  | HTML_CONTENT => 2
  end.

Definition TokenType_members : list TokenType :=
  [CONTENT; COMMENT; HTML_CONTENT].

(** The order in which [scan] tries the three kinds: the HTML block comes
    first in the function body, then the content block, then the comment
    block. *)
Definition priority (t : TokenType) : nat :=
  match t with
  | HTML_CONTENT => 0
  | CONTENT => 1
  | COMMENT => 2
  end.

(** [const bool *valid_symbols]: an array indexed by enumerator value. *)
Definition valid_symbols_t : Type := nat -> bool.

Definition requests (valid_symbols : valid_symbols_t) (t : TokenType) : bool :=
  valid_symbols (ordinal t).

(** The array that holds [true] exactly at the listed kinds. *)
Definition symbols (ts : list TokenType) : valid_symbols_t :=
  fun i => existsb (fun t => Nat.eqb (ordinal t) i) ts.

(** ** The lexer *)

(** The part of [TSLexer] the scanner touches.  [unread] is the input from
    the read position on, [position] counts the code points read so far,
    [token_start] is where the token under construction begins (a skipping
    advance moves it), [marked_end] is the position of the last [mark_end]
    call, if any, and [result_symbol] is the field of that name. *)
Record TSLexer : Type := mkLexer {
  unread : list Z;
  position : nat;
  token_start : nat;
  marked_end : option nat;
  result_symbol : option TokenType
}.

(** A lexer placed at the start of [input]. *)
Definition lexer_start (input : list Z) : TSLexer :=
  mkLexer input 0 0 None None.

(** [lexer->lookahead]: the next code point, 0 at the end of input. *)
Definition lookahead (lx : TSLexer) : Z := hd 0 (unread lx).

(** [lexer->advance(lexer, skip)]: read one code point; with [skip] the
    token start follows the read position.  At the end of input it does
    nothing. *)
Definition lexer_advance (skip : bool) (lx : TSLexer) : TSLexer :=
  match unread lx with
  | [] => lx
  | _ :: u =>
      mkLexer u (S (position lx))
              (if skip then S (position lx) else token_start lx)
              (marked_end lx) (result_symbol lx)
  end.

(** [lexer->mark_end(lexer)]. *)
Definition mark_end (lx : TSLexer) : TSLexer :=
  mkLexer (unread lx) (position lx) (token_start lx)
          (Some (position lx)) (result_symbol lx).

(** [lexer->result_symbol = t]. *)
Definition set_result_symbol (t : TokenType) (lx : TSLexer) : TSLexer :=
  mkLexer (unread lx) (position lx) (token_start lx)
          (marked_end lx) (Some t).

(** [static void advance(TSLexer *lexer)]. *)
Definition advance (lx : TSLexer) : TSLexer := lexer_advance false lx.

(** Where the token ends once the scan has returned: the marked position,
    or the read position when [mark_end] was never called. *)
Definition token_end (lx : TSLexer) : nat :=
  match marked_end lx with
  | Some e => e
  | None => position lx
  end.

(** The code points of [input] that the token covers. *)
Definition token_span (input : list Z) (lx : TSLexer) : list Z :=
  firstn (token_end lx - token_start lx) (skipn (token_start lx) input).

(** ** The scanner *)

(** Fuel that lets a loop run once per unread code point, and once more to
    see the end of input. *)
Definition fuel_for (lx : TSLexer) : nat := S (length (unread lx)).

Definition bind {A B : Type} (m : option A) (k : A -> option B) : option B :=
  match m with
  | Some a => k a
  | None => None
  end.

Notation "x <- m ;; k" := (bind m (fun x => k))
  (at level 61, m at next level, right associativity).
Notation "' p <- m ;; k" := (bind m (fun x => let p := x in k))
  (at level 61, p pattern, m at next level, right associativity).

(** [while (iswspace(lexer->lookahead)) lexer->advance(lexer, true);] *)
Fixpoint eat_whitespace_loop (fuel : nat) (lx : TSLexer) : option TSLexer :=
  match fuel with
  | O => None
  | S fuel' =>
      if iswspace (lookahead lx)
      then eat_whitespace_loop fuel' (lexer_advance true lx)
      else Some lx
  end.

(** The loop of the HTML block (lines 29 to 37); the result carries the
    final value of [has_content]. *)
Fixpoint html_loop (fuel : nat) (lx : TSLexer) (has_content : bool)
  : option (TSLexer * bool) :=
  match fuel with
  | O => None
  | S fuel' =>
      if lookahead lx =? 0 then Some (lx, has_content)
      else if (lookahead lx =? LANGLE) || (lookahead lx =? LBRACE)
      then Some (lx, has_content)
      else html_loop fuel' (mark_end (advance lx)) true
  end.

(** The loop of the content block (lines 49 to 67). *)
Fixpoint content_loop (fuel : nat) (lx : TSLexer) (has_content : bool)
  : option (TSLexer * bool) :=
  match fuel with
  | O => None
  | S fuel' =>
      if lookahead lx =? 0 then Some (lx, has_content)
      else if lookahead lx =? LBRACE then
        let lx1 := advance lx in
        if (lookahead lx1 =? LBRACE) || (lookahead lx1 =? PERCENT)
           || (lookahead lx1 =? HASH)
        then Some (lx1, has_content)
        else content_loop fuel' (mark_end lx1) true
      else if lookahead lx =? LANGLE then Some (lx, has_content)
      else content_loop fuel' (mark_end (advance lx)) true
  end.

(** The loop of the comment block (lines 79 to 94).  [true] is the
    [return true] inside the loop; [false] means the loop ran to its end. *)
Fixpoint comment_loop (fuel : nat) (lx : TSLexer) : option (bool * TSLexer) :=
  match fuel with
  | O => None
  | S fuel' =>
      if lookahead lx =? 0 then Some (false, lx)
      else
        let lx1 := mark_end lx in
        if lookahead lx1 =? HASH then
          let lx2 := advance lx1 in
          if lookahead lx2 =? RBRACE
          then Some (true, mark_end (advance (set_result_symbol COMMENT lx2)))
          else comment_loop fuel' (advance lx2)
        else comment_loop fuel' (advance lx1)
  end.

(** Lines 26 to 43: the HTML block.  [true] means it returned from the
    scan. *)
Definition html_content_matcher (valid_symbols : valid_symbols_t)
  (lx : TSLexer) : option (bool * TSLexer) :=
  if valid_symbols (ordinal HTML_CONTENT)
     && negb (lookahead lx =? LANGLE) && negb (lookahead lx =? LBRACE)
  then
    '(lx', has_content) <- html_loop (fuel_for lx) lx false ;;
    if has_content
    then Some (true, set_result_symbol HTML_CONTENT lx')
    else Some (false, lx')
  else Some (false, lx).

(** Lines 46 to 73: the content block. *)
Definition content_matcher (valid_symbols : valid_symbols_t)
  (lx : TSLexer) : option (bool * TSLexer) :=
  if valid_symbols (ordinal CONTENT)
  then
    '(lx', has_content) <- content_loop (fuel_for lx) lx false ;;
    if has_content
    then Some (true, set_result_symbol CONTENT lx')
    else Some (false, lx')
  else Some (false, lx).

(** Lines 76 to 95: the comment block. *)
Definition comment_matcher (lx : TSLexer) : option (bool * TSLexer) :=
  if lookahead lx =? HASH
  then comment_loop (fuel_for (advance lx)) (advance lx)
  else Some (false, lx).

(** [tree_sitter_twig_external_scanner_scan].  The result is the returned
    flag and the lexer as the call leaves it; [None] would mean that a loop
    ran out of fuel. *)
Definition scan (valid_symbols : valid_symbols_t) (lexer : TSLexer)
  : option (bool * TSLexer) :=
  lx0 <- eat_whitespace_loop (fuel_for lexer) lexer ;;
  '(m1, lx1) <- html_content_matcher valid_symbols lx0 ;;
  if m1 then Some (true, lx1) else
  '(m2, lx2) <- content_matcher valid_symbols lx1 ;;
  if m2 then Some (true, lx2) else
  comment_matcher lx2.

(** What one call reports to the parser: the kind and the span of the token,
    or nothing. *)
Definition scan_token (valid_symbols : valid_symbols_t) (input : list Z)
  : option (option (TokenType * list Z)) :=
  '(ok, lx) <- scan valid_symbols (lexer_start input) ;;
  if ok
  then match result_symbol lx with
       | Some t => Some (Some (t, token_span input lx))
       | None => None
       end
  else Some None.

(** The kind a scan reports, or nothing. *)
Definition scan_kind (valid_symbols : valid_symbols_t) (lexer : TSLexer)
  : option (option TokenType) :=
  '(ok, lx) <- scan valid_symbols lexer ;;
  if ok then Some (result_symbol lx) else Some None.

(** ** Observing the blocks

    What can be seen of a block from the lexer before and after it. *)

(** The whitespace loop of a scan. *)
Definition after_whitespace (lexer : TSLexer) : option TSLexer :=
  eat_whitespace_loop (fuel_for lexer) lexer.

(** The block read at least one code point. *)
Definition reads (lx lx' : TSLexer) : bool :=
  (position lx <? position lx')%nat.

(** The block marked an end behind at least one code point it read. *)
Definition marks (lx lx' : TSLexer) : bool :=
  match marked_end lx' with
  | Some e => (position lx <? e)%nat
  | None => false
  end.

(** The kind of the first block, in the order of the function body, that is
    requested (the comment block is tried whatever is requested) and reads
    at least one code point. *)
Definition first_reader (vs : valid_symbols_t) (lexer : TSLexer)
  : option (option TokenType) :=
  lx0 <- after_whitespace lexer ;;
  '(_, lx1) <- html_content_matcher vs lx0 ;;
  if vs (ordinal HTML_CONTENT) && reads lx0 lx1
  then Some (Some HTML_CONTENT) else
  '(_, lx2) <- content_matcher vs lx1 ;;
  if vs (ordinal CONTENT) && reads lx1 lx2
  then Some (Some CONTENT) else
  '(_, lx3) <- comment_matcher lx2 ;;
  if reads lx2 lx3 then Some (Some COMMENT) else Some None.

(** The kind of the first block, in the same order, that succeeds: the HTML
    block when it is requested and reads at least one code point, the content
    block when it is requested and reads and marks at least one code point,
    the comment block when it reaches its closer. *)
Definition first_match (vs : valid_symbols_t) (lexer : TSLexer)
  : option (option TokenType) :=
  lx0 <- after_whitespace lexer ;;
  '(_, lx1) <- html_content_matcher vs lx0 ;;
  if vs (ordinal HTML_CONTENT) && reads lx0 lx1
  then Some (Some HTML_CONTENT) else
  '(_, lx2) <- content_matcher vs lx1 ;;
  if vs (ordinal CONTENT) && marks lx1 lx2
  then Some (Some CONTENT) else
  '(closed, _) <- comment_matcher lx2 ;;
  if closed then Some (Some COMMENT) else Some None.

(** No block that declines has moved the read position. *)
Definition no_consumption_leak (vs : valid_symbols_t) (lexer : TSLexer)
  : Prop :=
  forall lx0, after_whitespace lexer = Some lx0 ->
  forall lx1, html_content_matcher vs lx0 = Some (false, lx1) ->
    position lx1 = position lx0
    /\ forall lx2, content_matcher vs lx1 = Some (false, lx2) ->
         position lx2 = position lx1
         /\ forall lx3, comment_matcher lx2 = Some (false, lx3) ->
              position lx3 = position lx2.

(** The enumerator values follow the order in which the kinds are tried. *)
Definition ordinals_follow_priority : Prop :=
  forall a b : TokenType,
    (priority a < priority b)%nat -> (ordinal a < ordinal b)%nat.

(** An ASCII letter. *)
Definition is_letter (c : Z) : bool :=
  ((65 <=? c) && (c <=? 90)) || ((97 <=? c) && (c <=? 122)).

(** A closer occurs in the comment body [u]. *)
Definition has_closer (u : list Z) : Prop :=
  exists pre post, u = pre ++ HASH :: RBRACE :: post.

(** ** Runs of code points

    What each loop does to the unread input, as functions on lists.  The
    loop lemmas of the next section relate them to the loops. *)

(** The code points at which the HTML loop stops. *)
Definition html_stop (c : Z) : bool :=
  (c =? 0) || (c =? LANGLE) || (c =? LBRACE).

(** The code points that make a preceding brace a directive opener. *)
Definition opens_directive (d : Z) : bool :=
  (d =? LBRACE) || (d =? PERCENT) || (d =? HASH).

(** Number of leading whitespace code points. *)
Fixpoint whitespace_run (u : list Z) : nat :=
  match u with
  | [] => O
  | c :: u' => if iswspace c then S (whitespace_run u') else O
  end.

(** Number of code points the HTML loop reads. *)
Fixpoint html_run (u : list Z) : nat :=
  match u with
  | [] => O
  | c :: u' => if html_stop c then O else S (html_run u')
  end.

(** Number of code points the content loop marks, and the number it
    reads. *)
Fixpoint content_run (u : list Z) : nat * nat :=
  match u with
  | [] => (O, O)
  | c :: u' =>
      if c =? 0 then (O, O)
      else if c =? LBRACE then
        if opens_directive (hd 0 u') then (O, 1%nat)
        else (S (fst (content_run u')), S (snd (content_run u')))
      else if c =? LANGLE then (O, O)
      else (S (fst (content_run u')), S (snd (content_run u')))
  end.

(** Where the comment loop returns: the number of code points up to and
    including the closer it finds, if it finds one. *)
Fixpoint comment_close (u : list Z) : option nat :=
  match u with
  | [] => None
  | c :: u1 =>
      if c =? 0 then None
      else if c =? HASH then
        match u1 with
        | [] => None
        | d :: u2 =>
            if d =? RBRACE then Some 2%nat
            else option_map (fun k => S (S k)) (comment_close u2)
        end
      else option_map S (comment_close u1)
  end.

(** A comment body with no closer in it: no hash is directly followed by a
    closing brace. *)
Fixpoint no_closer (u : list Z) : bool :=
  match u with
  | [] => true
  | c :: u' =>
      negb ((c =? HASH) && (hd 0 u' =? RBRACE)) && no_closer u'
  end.

(** Text the content loop reads and marks to its end when [next] follows
    it: no NUL, no opening angle bracket, and no brace directly followed by
    a brace, a percent sign or a hash. *)
Fixpoint plain_content (body : list Z) (next : Z) : bool :=
  match body with
  | [] => true
  | c :: body' =>
      negb (c =? 0) && negb (c =? LANGLE)
      && negb ((c =? LBRACE) && opens_directive (hd next body'))
      && plain_content body' next
  end.

(** What may follow such text: the end of input (or a NUL, which the lexer
    cannot tell from it), an opening angle bracket, or a directive opener. *)
Definition content_stop (stop : list Z) : bool :=
  match stop with
  | [] => true
  | c :: stop' =>
      (c =? 0) || (c =? LANGLE)
      || ((c =? LBRACE) && opens_directive (hd 0 stop'))
  end.

(** Whether the input starts with a directive opener. *)
Definition at_opener (u : list Z) : bool :=
  match u with
  | c :: u' => (c =? LBRACE) && opens_directive (hd 0 u')
  | [] => false
  end.

(** ** The loops, in closed form *)

Lemma skipn_length_app (A : Type) (a b : list A) :
  skipn (length a) (a ++ b) = b.
Proof. induction a as [|x a IH]; simpl; auto. Qed.

Lemma firstn_length_app (A : Type) (a b : list A) :
  firstn (length a) (a ++ b) = a.
Proof. induction a as [|x a IH]; simpl; [reflexivity | now rewrite IH]. Qed.

Lemma eat_whitespace_loop_eq (u : list Z) :
  forall fuel p s e r,
    (length u < fuel)%nat ->
    eat_whitespace_loop fuel (mkLexer u p s e r)
    = Some (mkLexer (skipn (whitespace_run u) u) (p + whitespace_run u)
              (if Nat.eqb (whitespace_run u) 0 then s
               else (p + whitespace_run u)%nat) e r).
Proof.
  induction u as [|c u IH]; intros fuel p s e r Hf;
    (destruct fuel as [|fuel]; [simpl in Hf; lia|]).
  - simpl. now rewrite Nat.add_0_r.
  - simpl. unfold lookahead. simpl. destruct (iswspace c) eqn:Hc.
    + unfold lexer_advance. simpl. rewrite IH by (simpl in Hf; lia).
      simpl. f_equal. f_equal; try lia.
      destruct (Nat.eqb (whitespace_run u) 0) eqn:Hn; [|lia].
      apply Nat.eqb_eq in Hn. lia.
    + simpl. now rewrite Nat.add_0_r.
Qed.

Lemma html_loop_eq (u : list Z) :
  forall fuel p s e r has,
    (length u < fuel)%nat ->
    html_loop fuel (mkLexer u p s e r) has
    = Some (mkLexer (skipn (html_run u) u) (p + html_run u) s
              (if Nat.eqb (html_run u) 0 then e
               else Some (p + html_run u)%nat) r,
            has || negb (Nat.eqb (html_run u) 0)).
Proof.
  induction u as [|c u IH]; intros fuel p s e r has Hf;
    (destruct fuel as [|fuel]; [simpl in Hf; lia|]).
  - simpl. now rewrite Nat.add_0_r, orb_false_r.
  - simpl. unfold lookahead, html_stop. simpl.
    destruct (c =? 0); simpl; [now rewrite Nat.add_0_r, orb_false_r|].
    destruct ((c =? LANGLE) || (c =? LBRACE)); simpl;
      [now rewrite Nat.add_0_r, orb_false_r|].
    unfold advance, lexer_advance, mark_end. simpl.
    rewrite IH by (simpl in Hf; lia). rewrite orb_true_r. simpl.
    f_equal. f_equal. f_equal; try lia.
    destruct (Nat.eqb (html_run u) 0) eqn:Hn; f_equal; [|lia].
    apply Nat.eqb_eq in Hn. lia.
Qed.

Lemma content_loop_eq (u : list Z) :
  forall fuel p s e r has,
    (length u < fuel)%nat ->
    content_loop fuel (mkLexer u p s e r) has
    = Some (mkLexer (skipn (snd (content_run u)) u)
              (p + snd (content_run u)) s
              (if Nat.eqb (fst (content_run u)) 0 then e
               else Some (p + fst (content_run u))%nat) r,
            has || negb (Nat.eqb (fst (content_run u)) 0)).
Proof.
  induction u as [|c u IH]; intros fuel p s e r has Hf;
    (destruct fuel as [|fuel]; [simpl in Hf; lia|]).
  - simpl. now rewrite Nat.add_0_r, orb_false_r.
  - simpl. unfold lookahead. simpl.
    destruct (c =? 0); simpl; [now rewrite Nat.add_0_r, orb_false_r|].
    destruct (c =? LBRACE); simpl.
    + unfold opens_directive.
      destruct ((hd 0 u =? LBRACE) || (hd 0 u =? PERCENT) || (hd 0 u =? HASH));
        simpl; [now rewrite orb_false_r, Nat.add_1_r|].
      unfold mark_end. simpl.
      rewrite IH by (simpl in Hf; lia). rewrite orb_true_r. simpl.
      do 2 f_equal.
      f_equal; [lia | destruct (fst (content_run u)); simpl; f_equal; lia].
    + destruct (c =? LANGLE); simpl; [now rewrite Nat.add_0_r, orb_false_r|].
      unfold mark_end. simpl.
      rewrite IH by (simpl in Hf; lia). rewrite orb_true_r. simpl.
      do 2 f_equal.
      f_equal; [lia | destruct (fst (content_run u)); simpl; f_equal; lia].
Qed.

Lemma comment_loop_eq (n : nat) :
  forall u, (length u <= n)%nat ->
  forall fuel p s e r,
    (length u < fuel)%nat ->
    match comment_close u with
    | Some k =>
        comment_loop fuel (mkLexer u p s e r)
        = Some (true, mkLexer (skipn k u) (p + k) s (Some (p + k)%nat)
                        (Some COMMENT))
    | None =>
        exists lx',
          comment_loop fuel (mkLexer u p s e r) = Some (false, lx')
          /\ (p <= position lx')%nat
          /\ lookahead lx' = 0
    end.
Proof.
  induction n as [|n IH]; intros u Hn fuel p s e r Hf;
    (destruct fuel as [|fuel]; [lia|]).
  - destruct u; [|simpl in Hn; lia]. simpl. eexists. repeat split. apply le_n.
  - destruct u as [|c u1];
      [simpl; eexists; repeat split; apply le_n|].
    simpl in Hn, Hf. simpl. unfold lookahead. simpl.
    destruct (Z.eqb_spec c 0) as [->|Hc0];
      [eexists; repeat split; apply le_n|].
    destruct (c =? HASH).
    + destruct u1 as [|d u2].
      * simpl. destruct fuel as [|fuel]; [lia|]. simpl.
        eexists. repeat split. simpl. lia.
      * simpl in Hn, Hf. simpl. destruct (d =? RBRACE).
        -- unfold mark_end. simpl. repeat f_equal; lia.
        -- unfold advance, lexer_advance. simpl.
           specialize (IH u2 ltac:(lia) fuel (S (S p)) s (Some p) r ltac:(lia)).
           destruct (comment_close u2) as [k|]; simpl.
           ++ rewrite IH. simpl. repeat f_equal; lia.
           ++ destruct IH as (lx' & E & Hp & Hl). exists lx'.
              repeat split; [exact E|lia|exact Hl].
    + unfold advance, lexer_advance. simpl.
      specialize (IH u1 ltac:(lia) fuel (S p) s (Some p) r ltac:(lia)).
      destruct (comment_close u1) as [k|]; simpl.
      * rewrite IH. simpl. repeat f_equal; lia.
      * destruct IH as (lx' & E & Hp & Hl). exists lx'.
        repeat split; [exact E|lia|exact Hl].
Qed.

(** ** The three blocks, in closed form *)

Lemma html_content_matcher_eq (vs : valid_symbols_t) u p s e r :
  html_content_matcher vs (mkLexer u p s e r)
  = Some (if vs (ordinal HTML_CONTENT) && negb (Nat.eqb (html_run u) 0)
          then (true, mkLexer (skipn (html_run u) u) (p + html_run u) s
                        (Some (p + html_run u)%nat) (Some HTML_CONTENT))
          else (false, mkLexer u p s e r)).
Proof.
  unfold html_content_matcher, lookahead, fuel_for. cbn [unread].
  rewrite html_loop_eq by lia. cbn [bind orb].
  destruct (vs (ordinal HTML_CONTENT)); cbn [andb]; [|reflexivity].
  destruct u as [|c u]; [simpl; now rewrite Nat.add_0_r|].
  cbn [hd html_run]. unfold html_stop.
  destruct (c =? LANGLE), (c =? LBRACE), (c =? 0); simpl;
    rewrite ?Nat.add_0_r; reflexivity.
Qed.

Lemma content_matcher_eq (vs : valid_symbols_t) u p s e r :
  content_matcher vs (mkLexer u p s e r)
  = Some (if vs (ordinal CONTENT)
          then if Nat.eqb (fst (content_run u)) 0
               then (false, mkLexer (skipn (snd (content_run u)) u)
                              (p + snd (content_run u)) s e r)
               else (true, mkLexer (skipn (snd (content_run u)) u)
                             (p + snd (content_run u)) s
                             (Some (p + fst (content_run u))%nat)
                             (Some CONTENT))
          else (false, mkLexer u p s e r)).
Proof.
  unfold content_matcher, fuel_for. simpl unread.
  destruct (vs (ordinal CONTENT)); [|reflexivity].
  rewrite content_loop_eq by lia. simpl.
  destruct (Nat.eqb (fst (content_run u)) 0); reflexivity.
Qed.

Lemma comment_matcher_eq u p s e r :
  match u with
  | c :: u' =>
      if c =? HASH
      then match comment_close u' with
           | Some k =>
               comment_matcher (mkLexer u p s e r)
               = Some (true, mkLexer (skipn k u') (S p + k) s
                               (Some (S p + k)%nat) (Some COMMENT))
           | None =>
               exists lx',
                 comment_matcher (mkLexer u p s e r) = Some (false, lx')
                 /\ (S p <= position lx')%nat
                 /\ lookahead lx' = 0
           end
      else comment_matcher (mkLexer u p s e r)
           = Some (false, mkLexer u p s e r)
  | [] => comment_matcher (mkLexer u p s e r)
          = Some (false, mkLexer u p s e r)
  end.
Proof.
  destruct u as [|c u']; [reflexivity|].
  unfold comment_matcher, lookahead. simpl hd.
  destruct (c =? HASH); [|reflexivity].
  unfold advance, lexer_advance, fuel_for.
  cbn [unread position token_start marked_end result_symbol].
  apply (comment_loop_eq (length u') u' (le_n _)). lia.
Qed.

(** The whitespace loop on a fresh lexer. *)
Lemma eat_whitespace_start (input : list Z) :
  eat_whitespace_loop (fuel_for (lexer_start input)) (lexer_start input)
  = Some (mkLexer (skipn (whitespace_run input) input)
            (whitespace_run input) (whitespace_run input) None None).
Proof.
  unfold lexer_start, fuel_for. simpl unread.
  rewrite eat_whitespace_loop_eq by lia. simpl.
  destruct (whitespace_run input); reflexivity.
Qed.

(** The whole scan: whitespace is skipped, then the first block that
    succeeds returns. *)
Lemma scan_eq (vs : valid_symbols_t) u p s e r :
  let n := whitespace_run u in
  let u0 := skipn n u in
  let p0 := (p + n)%nat in
  let s0 := if Nat.eqb n 0 then s else (p + n)%nat in
  scan vs (mkLexer u p s e r)
  = if vs (ordinal HTML_CONTENT) && negb (Nat.eqb (html_run u0) 0)
    then Some (true, mkLexer (skipn (html_run u0) u0) (p0 + html_run u0) s0
                       (Some (p0 + html_run u0)%nat) (Some HTML_CONTENT))
    else if vs (ordinal CONTENT)
    then if Nat.eqb (fst (content_run u0)) 0
         then comment_matcher
                (mkLexer (skipn (snd (content_run u0)) u0)
                   (p0 + snd (content_run u0)) s0 e r)
         else Some (true, mkLexer (skipn (snd (content_run u0)) u0)
                            (p0 + snd (content_run u0)) s0
                            (Some (p0 + fst (content_run u0))%nat)
                            (Some CONTENT))
    else comment_matcher (mkLexer u0 p0 s0 e r).
Proof.
  intros n u0 p0 s0. unfold scan, fuel_for. cbn [unread].
  rewrite eat_whitespace_loop_eq by lia. cbn [bind].
  fold n u0 p0 s0. rewrite html_content_matcher_eq. cbn [bind].
  destruct (vs (ordinal HTML_CONTENT) && negb (Nat.eqb (html_run u0) 0));
    [reflexivity|].
  rewrite content_matcher_eq. cbn [bind].
  destruct (vs (ordinal CONTENT)); [|reflexivity].
  destruct (Nat.eqb (fst (content_run u0)) 0); reflexivity.
Qed.

(** ** Facts about runs *)

Lemma hd_app (d : Z) (a b : list Z) : hd d (a ++ b) = hd (hd d b) a.
Proof. destruct a; reflexivity. Qed.

Lemma whitespace_run_app (ws rest : list Z) :
  forallb iswspace ws = true ->
  iswspace (hd 0 rest) = false ->
  whitespace_run (ws ++ rest) = length ws.
Proof.
  intros Hws Hr. induction ws as [|c ws IH]; simpl in *.
  - destruct rest as [|c rest]; simpl in *; [reflexivity|now rewrite Hr].
  - apply andb_true_iff in Hws as [Hc Hws]. rewrite Hc, IH; auto.
Qed.

Lemma whitespace_run_all (ws : list Z) :
  forallb iswspace ws = true -> whitespace_run ws = length ws.
Proof.
  intros Hws. rewrite <- (app_nil_r ws) at 1.
  apply whitespace_run_app; auto.
Qed.

(** After the whitespace loop the lookahead is not whitespace. *)
Lemma whitespace_run_skipn (u : list Z) :
  iswspace (hd 0 (skipn (whitespace_run u) u)) = false.
Proof.
  induction u as [|c u IH]; simpl; [reflexivity|].
  destruct (iswspace c) eqn:Hc; simpl; auto.
Qed.

Lemma html_run_app (run stop : list Z) :
  forallb (fun c => negb (html_stop c)) run = true ->
  html_stop (hd 0 stop) = true ->
  html_run (run ++ stop) = length run.
Proof.
  intros Hrun Hstop. induction run as [|c run IH]; simpl in *.
  - destruct stop as [|c stop]; simpl in *; [reflexivity|now rewrite Hstop].
  - apply andb_true_iff in Hrun as [Hc Hrun].
    apply negb_true_iff in Hc. rewrite Hc, IH; auto.
Qed.

Lemma html_run_0 (u : list Z) :
  Nat.eqb (html_run u) 0 = html_stop (hd 0 u).
Proof.
  destruct u as [|c u]; simpl; [reflexivity|]. now destruct (html_stop c).
Qed.

Lemma content_run_stop (stop : list Z) :
  content_stop stop = true ->
  content_run stop = (O, if at_opener stop then 1%nat else O).
Proof.
  destruct stop as [|c stop]; simpl; [reflexivity|]. intros H.
  destruct (c =? 0) eqn:E0.
  - destruct (Z.eqb_spec c 0) as [->|]; [reflexivity|discriminate].
  - destruct (c =? LBRACE) eqn:E1; simpl in *.
    + destruct (Z.eqb_spec c LBRACE) as [->|]; [|discriminate].
      simpl in H. now rewrite H.
    + rewrite orb_false_r in H. now rewrite H.
Qed.

Lemma content_run_app (body stop : list Z) :
  plain_content body (hd 0 stop) = true ->
  content_stop stop = true ->
  content_run (body ++ stop)
  = (length body, (length body + if at_opener stop then 1 else 0)%nat).
Proof.
  intros Hbody Hstop. induction body as [|c body IH].
  - now apply content_run_stop.
  - simpl in Hbody. rewrite !andb_true_iff in Hbody.
    destruct Hbody as [[[H0 H1] H2] H3].
    apply negb_true_iff in H0, H1, H2.
    simpl. rewrite H0, hd_app, IH by assumption. simpl.
    destruct (c =? LBRACE); simpl in H2; [now rewrite H2|].
    now rewrite H1.
Qed.

(** [no_closer] decides [has_closer]. *)
Lemma no_closer_false_iff (u : list Z) :
  no_closer u = false <-> has_closer u.
Proof.
  split.
  - induction u as [|c u IH]; [discriminate|].
    cbn [no_closer]. rewrite andb_false_iff, negb_false_iff, andb_true_iff.
    intros [[Hc Hd]|Hu].
    + apply Z.eqb_eq in Hc. subst c.
      destruct u as [|d u]; [discriminate|].
      cbn [hd] in Hd. apply Z.eqb_eq in Hd. subst d.
      exists [], u. reflexivity.
    + destruct (IH Hu) as (pre & post & ->).
      exists (c :: pre), post. reflexivity.
  - intros (pre & post & ->).
    induction pre as [|c pre IH]; [reflexivity|].
    cbn [app no_closer]. rewrite IH. apply andb_false_r.
Qed.

Lemma comment_close_no_closer (n : nat) :
  forall u, (length u <= n)%nat ->
    no_closer u = true -> comment_close u = None.
Proof.
  induction n as [|n IH]; intros u Hn Hu.
  - destruct u; [reflexivity|simpl in Hn; lia].
  - destruct u as [|c u1]; [reflexivity|].
    simpl in Hn, Hu. apply andb_true_iff in Hu as [Hc Hu1]. simpl.
    destruct (c =? 0); [reflexivity|].
    destruct (c =? HASH).
    + destruct u1 as [|d u2]; [reflexivity|].
      simpl in Hc, Hn, Hu1. apply negb_true_iff in Hc. rewrite Hc.
      apply andb_true_iff in Hu1 as [_ Hu2].
      rewrite (IH u2) by (auto; lia). reflexivity.
    + rewrite (IH u1) by (auto; lia). reflexivity.
Qed.

Lemma skipn_length_plus_app (A : Type) (a b : list A) (k : nat) :
  skipn (length a + k) (a ++ b) = skipn k b.
Proof. induction a as [|x a IH]; simpl; auto. Qed.

(** The comment block always returns, and when it returns [true] the
    result symbol is [COMMENT]. *)
Lemma comment_matcher_result (lx : TSLexer) :
  exists ok lx',
    comment_matcher lx = Some (ok, lx')
    /\ (ok = true -> result_symbol lx' = Some COMMENT).
Proof.
  destruct lx as [u p s e r].
  pose proof (comment_matcher_eq u p s e r) as H.
  destruct u as [|c u']; [rewrite H; eexists _, _; split; [eauto|discriminate]|].
  destruct (c =? HASH);
    [|rewrite H; eexists _, _; split; [eauto|discriminate]].
  destruct (comment_close u') as [k|].
  - rewrite H. eexists _, _. split; [reflexivity|reflexivity].
  - destruct H as (lx' & H & _). rewrite H. eexists _, _.
    split; [eauto|discriminate].
Qed.

(** Reading the results of the comment block off [comment_matcher_result]. *)
Ltac comment_cases :=
  match goal with
  | |- context [comment_matcher ?l] =>
      let ok := fresh "ok" in
      let lx := fresh "lx" in
      let E := fresh "E" in
      let Hk := fresh "Hk" in
      destruct (comment_matcher_result l) as (ok & lx & E & Hk);
      rewrite E; cbn [bind];
      destruct ok; [rewrite ?Hk by reflexivity|]
  end.

(** ** The content block *)

Section ContentRun.

Variable vs : valid_symbols_t.
Variables ws body stop : list Z.

Hypothesis content_requested : vs (ordinal CONTENT) = true.
Hypothesis html_declines :
  vs (ordinal HTML_CONTENT) = false \/ hd 0 body = LBRACE.
Hypothesis ws_white : forallb iswspace ws = true.
Hypothesis body_nonempty : body <> [].
Hypothesis body_starts : iswspace (hd 0 body) = false.
Hypothesis body_plain : plain_content body (hd 0 stop) = true.
Hypothesis stop_stops : content_stop stop = true.

Lemma content_run_scan :
  scan vs (lexer_start (ws ++ body ++ stop))
  = Some (true,
          mkLexer (if at_opener stop then tl stop else stop)
            (length ws + (length body + if at_opener stop then 1 else 0))
            (length ws) (Some (length ws + length body)%nat)
            (Some CONTENT)).
Proof.
  unfold lexer_start. rewrite scan_eq. cbv zeta.
  assert (Hn : whitespace_run (ws ++ body ++ stop) = length ws).
  { apply whitespace_run_app; [assumption|]. rewrite hd_app.
    destruct body; [contradiction|assumption]. }
  rewrite Hn, skipn_length_app.
  assert (Hh : vs (ordinal HTML_CONTENT)
               && negb (Nat.eqb (html_run (body ++ stop)) 0) = false).
  { destruct html_declines as [-> | Hb]; [reflexivity|].
    rewrite html_run_0, hd_app.
    destruct body as [|c b]; [contradiction|]. simpl in Hb. subst c.
    simpl. apply andb_false_r. }
  rewrite Hh, content_requested, content_run_app by assumption.
  cbn [fst snd].
  assert (Hb : Nat.eqb (length body) 0 = false)
    by (destruct body; [contradiction|reflexivity]).
  rewrite Hb, skipn_length_plus_app.
  assert (Hs : (if Nat.eqb (length ws) 0 then O else (0 + length ws)%nat)
               = length ws) by (destruct (length ws); reflexivity).
  rewrite Hs. cbn [Nat.add].
  destruct (at_opener stop) eqn:Eo; [|reflexivity].
  destruct stop; [discriminate|reflexivity].
Qed.

End ContentRun.

(** C1.  With the content kind requested and the HTML block out of the way
    (not requested, or looking at a brace), the scan of
    [ws ++ body ++ stop], where [body] is plain content that ends at [stop],
    returns the content kind with exactly [body] as its span.  When [stop]
    begins with a directive opener (a brace followed by a brace, a percent
    sign or a hash), its brace has been read but lies outside the span; a
    brace inside [body], which some other code point follows, is part of the
    span like any other code point. *)
Theorem content_stops_before_opener :
  forall (vs : valid_symbols_t) (ws body stop : list Z),
    vs (ordinal CONTENT) = true ->
    (vs (ordinal HTML_CONTENT) = false \/ hd 0 body = LBRACE) ->
    forallb iswspace ws = true ->
    body <> [] ->
    iswspace (hd 0 body) = false ->
    plain_content body (hd 0 stop) = true ->
    content_stop stop = true ->
    scan_token vs (ws ++ body ++ stop) = Some (Some (CONTENT, body))
    /\ exists lx,
         scan vs (lexer_start (ws ++ body ++ stop)) = Some (true, lx)
         /\ token_start lx = length ws
         /\ token_end lx = (length ws + length body)%nat
         /\ unread lx = (if at_opener stop then tl stop else stop).
Proof.
  intros vs ws body stop Hc Hh Hws Hne Hb Hp Hs.
  pose proof (content_run_scan vs ws body stop Hc Hh Hws Hne Hb Hp Hs) as E.
  split.
  - unfold scan_token. rewrite E. cbn [bind result_symbol]. unfold token_span.
    cbn [token_end token_start marked_end].
    replace (length ws + length body - length ws)%nat with (length body)
      by lia.
    now rewrite skipn_length_app, firstn_length_app.
  - eexists. split; [exact E|]. cbn. auto.
Qed.

Lemma content_stops_before_opener_witness :
  scan_token (symbols [CONTENT]) ([] ++ text "hello " ++ text "{{")
  = Some (Some (CONTENT, text "hello "))
  /\ exists lx,
       scan (symbols [CONTENT]) (lexer_start ([] ++ text "hello " ++ text "{{"))
       = Some (true, lx)
       /\ token_start lx = length (@nil Z)
       /\ token_end lx = (length (@nil Z) + length (text "hello "))%nat
       /\ unread lx
          = (if at_opener (text "{{") then tl (text "{{") else text "{{").
Proof.
  apply (content_stops_before_opener
           (symbols [CONTENT]) [] (text "hello ") (text "{{")).
  - reflexivity.
  - left. reflexivity.
  - reflexivity.
  - discriminate.
  - reflexivity.
  - reflexivity.
  - reflexivity.
Defined.

(** The two inputs the specification tests the content block on. *)
Example content_hello :
  scan_token (symbols [CONTENT]) (text "hello {{")
  = Some (Some (CONTENT, text "hello ")).
Proof. vm_compute. reflexivity. Qed.

Example content_lone_brace :
  scan_token (symbols [CONTENT]) (text "a{b")
  = Some (Some (CONTENT, text "a{b")).
Proof. vm_compute. reflexivity. Qed.

(** ** The HTML block *)

(** C2.  With the HTML kind requested, let the input be whitespace [ws],
    then a run [run] of code points none of which is an opening angle
    bracket, a brace or NUL, then [stop], which is empty or begins with one
    of these.  If [run] is not empty the scan returns the HTML kind with
    exactly [run] as its span and leaves [stop] unread.  If [run] is empty
    (in particular when the lookahead is a brace) the HTML block reads
    nothing and the scan does not return the HTML kind. *)
Theorem html_run_maximal :
  forall (vs : valid_symbols_t) (ws run stop : list Z),
    vs (ordinal HTML_CONTENT) = true ->
    forallb iswspace ws = true ->
    iswspace (hd 0 run) = false ->
    forallb (fun c => negb (html_stop c)) run = true ->
    html_stop (hd 0 stop) = true ->
    (run <> [] ->
     scan_token vs (ws ++ run ++ stop) = Some (Some (HTML_CONTENT, run))
     /\ exists lx,
          scan vs (lexer_start (ws ++ run ++ stop)) = Some (true, lx)
          /\ token_start lx = length ws
          /\ token_end lx = (length ws + length run)%nat
          /\ position lx = (length ws + length run)%nat
          /\ unread lx = stop)
    /\ (run = [] ->
        (exists lx0,
           eat_whitespace_loop (fuel_for (lexer_start (ws ++ stop)))
             (lexer_start (ws ++ stop)) = Some lx0
           /\ unread lx0 = stop
           /\ html_content_matcher vs lx0 = Some (false, lx0))
        /\ scan_kind vs (lexer_start (ws ++ stop)) <> Some (Some HTML_CONTENT)
        /\ scan_kind vs (lexer_start (ws ++ stop)) <> None).
Proof.
  intros vs ws run stop Hv Hws Hr Hrun Hstop.
  assert (Hwstop : iswspace (hd 0 stop) = false).
  { unfold html_stop in Hstop. rewrite !orb_true_iff in Hstop.
    destruct Hstop as [[H|H]|H]; apply Z.eqb_eq in H; rewrite H; reflexivity. }
  split.
  - intros Hne.
    assert (Hn : whitespace_run (ws ++ run ++ stop) = length ws).
    { apply whitespace_run_app; [assumption|]. rewrite hd_app.
      destruct run; [contradiction|assumption]. }
    assert (Hl : Nat.eqb (length run) 0 = false)
      by (destruct run; [contradiction|reflexivity]).
    assert (Hs : (if Nat.eqb (length ws) 0 then O else (0 + length ws)%nat)
                 = length ws) by (destruct (length ws); reflexivity).
    assert (E : scan vs (lexer_start (ws ++ run ++ stop))
                = Some (true, mkLexer stop (length ws + length run)
                                (length ws)
                                (Some (length ws + length run)%nat)
                                (Some HTML_CONTENT))).
    { unfold lexer_start. rewrite scan_eq. cbv zeta.
      rewrite Hn, skipn_length_app, Hv, html_run_app, Hl, Hs by assumption.
      cbn [andb negb Nat.add]. now rewrite skipn_length_app. }
    split.
    + unfold scan_token. rewrite E. cbn [bind result_symbol].
      unfold token_span. cbn [token_end token_start marked_end].
      replace (length ws + length run - length ws)%nat with (length run)
        by lia.
      now rewrite skipn_length_app, firstn_length_app.
    + eexists. split; [exact E|]. cbn. auto.
  - intros ->. cbn [app].
    assert (Hn : whitespace_run (ws ++ stop) = length ws)
      by (apply whitespace_run_app; assumption).
    assert (Hh : Nat.eqb (html_run stop) 0 = true)
      by (now rewrite html_run_0).
    split; [|split].
    + eexists. split; [apply eat_whitespace_start|].
      rewrite Hn, skipn_length_app. split; [reflexivity|].
      rewrite html_content_matcher_eq, Hh.
      now rewrite andb_false_r.
    + unfold scan_kind, lexer_start. rewrite scan_eq. cbv zeta.
      rewrite Hn, skipn_length_app, Hh, andb_false_r.
      destruct (vs (ordinal CONTENT));
        [destruct (Nat.eqb (fst (content_run stop)) 0); [|discriminate]|];
        comment_cases; discriminate.
    + unfold scan_kind, lexer_start. rewrite scan_eq. cbv zeta.
      rewrite Hn, skipn_length_app, Hh, andb_false_r.
      destruct (vs (ordinal CONTENT));
        [destruct (Nat.eqb (fst (content_run stop)) 0); [|discriminate]|];
        comment_cases; discriminate.
Qed.

Lemma html_run_maximal_witness :
  (text "abc" <> [] ->
   scan_token (symbols [HTML_CONTENT]) ([] ++ text "abc" ++ text "<div>")
   = Some (Some (HTML_CONTENT, text "abc"))
   /\ exists lx,
        scan (symbols [HTML_CONTENT])
          (lexer_start ([] ++ text "abc" ++ text "<div>")) = Some (true, lx)
        /\ token_start lx = length (@nil Z)
        /\ token_end lx = (length (@nil Z) + length (text "abc"))%nat
        /\ position lx = (length (@nil Z) + length (text "abc"))%nat
        /\ unread lx = text "<div>")
  /\ (text "abc" = [] ->
      (exists lx0,
         eat_whitespace_loop (fuel_for (lexer_start ([] ++ text "<div>")))
           (lexer_start ([] ++ text "<div>")) = Some lx0
         /\ unread lx0 = text "<div>"
         /\ html_content_matcher (symbols [HTML_CONTENT]) lx0
            = Some (false, lx0))
      /\ scan_kind (symbols [HTML_CONTENT]) (lexer_start ([] ++ text "<div>"))
         <> Some (Some HTML_CONTENT)
      /\ scan_kind (symbols [HTML_CONTENT]) (lexer_start ([] ++ text "<div>"))
         <> None).
Proof.
  apply (html_run_maximal (symbols [HTML_CONTENT]) [] (text "abc")
           (text "<div>")); reflexivity.
Defined.

(** The two inputs the specification tests the HTML block on. *)
Example html_abc :
  scan_token (symbols [HTML_CONTENT]) (text "abc<div>")
  = Some (Some (HTML_CONTENT, text "abc"))
  /\ option_map (fun r => unread (snd r))
       (scan (symbols [HTML_CONTENT]) (lexer_start (text "abc<div>")))
     = Some (text "<div>").
Proof. vm_compute. split; reflexivity. Qed.

Example html_directive :
  scan_token (symbols [HTML_CONTENT]) (text "{{ x }}") = Some None
  /\ html_content_matcher (symbols [HTML_CONTENT])
       (lexer_start (text "{{ x }}"))
     = Some (false, lexer_start (text "{{ x }}")).
Proof. vm_compute. split; reflexivity. Qed.

(** ** The order of the blocks *)

Lemma letter_is_text (c : Z) :
  is_letter c = true -> html_stop c = false /\ iswspace c = false.
Proof.
  unfold is_letter, html_stop, iswspace, LANGLE, LBRACE.
  rewrite orb_true_iff, !andb_true_iff, !Z.leb_le. intros H.
  split.
  - rewrite !orb_false_iff, !Z.eqb_neq. lia.
  - rewrite orb_false_iff, andb_false_iff, Z.eqb_neq, !Z.leb_gt. lia.
Qed.

(** It is not the first block to read a code point that decides the scan.
    On two opening braces with content requested, the content block reads
    the first brace and declines, and the scan returns no token; on an
    unterminated comment the comment block reads to the end of input and the
    scan returns no token either. *)
Lemma first_reader_does_not_decide :
  first_reader (symbols [CONTENT]) (lexer_start (text "{{"))
  = Some (Some CONTENT)
  /\ scan_kind (symbols [CONTENT]) (lexer_start (text "{{")) = Some None
  /\ first_reader (symbols []) (lexer_start (text "# unterminated"))
     = Some (Some COMMENT)
  /\ scan_kind (symbols []) (lexer_start (text "# unterminated")) = Some None.
Proof. vm_compute. repeat split. Qed.

(** C3, amended.  After the whitespace loop the blocks are tried in the
    order HTML, content, comment, and the first that succeeds decides the
    kind the scan returns: the HTML block, when requested, by reading at
    least one code point; the content block, when requested, by reading and
    marking at least one code point; the comment block by reaching its
    closer.  In particular, when both the HTML and the content kind are
    requested and the lookahead is a letter, the scan returns the HTML
    kind. *)
Theorem first_match_wins :
  (forall (vs : valid_symbols_t) (input : list Z),
      scan_kind vs (lexer_start input) = first_match vs (lexer_start input))
  /\ (forall (vs : valid_symbols_t) (ws : list Z) (c : Z) (rest : list Z),
         vs (ordinal HTML_CONTENT) = true ->
         vs (ordinal CONTENT) = true ->
         forallb iswspace ws = true ->
         is_letter c = true ->
         scan_kind vs (lexer_start (ws ++ c :: rest))
         = Some (Some HTML_CONTENT)).
Proof.
  split.
  - intros vs input.
    unfold scan_kind, first_match, after_whitespace.
    rewrite eat_whitespace_start. unfold lexer_start. rewrite scan_eq.
    cbv zeta. cbn [bind Nat.add].
    set (n := whitespace_run input). set (u0 := skipn n input).
    replace (if Nat.eqb n 0 then O else n) with n by (now destruct n).
    rewrite html_content_matcher_eq.
    destruct (vs (ordinal HTML_CONTENT)) eqn:Hh; cbn [andb].
    + destruct (Nat.eqb (html_run u0) 0) eqn:Hr; cbn [negb bind].
      * unfold reads at 1. cbn [position]. rewrite Nat.ltb_irrefl.
        rewrite content_matcher_eq.
        destruct (vs (ordinal CONTENT)); cbn [bind andb].
        -- destruct (Nat.eqb (fst (content_run u0)) 0) eqn:Hm;
             cbn [bind marks marked_end position].
           ++ comment_cases; reflexivity.
           ++ apply Nat.eqb_neq in Hm.
              replace (n <? n + fst (content_run u0))%nat with true
                by (symmetry; apply Nat.ltb_lt; lia).
              reflexivity.
        -- comment_cases; reflexivity.
      * unfold reads. cbn [position]. apply Nat.eqb_neq in Hr.
        replace (n <? n + html_run u0)%nat with true
          by (symmetry; apply Nat.ltb_lt; lia).
        reflexivity.
    + cbn [bind]. rewrite content_matcher_eq.
      destruct (vs (ordinal CONTENT)); cbn [bind andb].
      * destruct (Nat.eqb (fst (content_run u0)) 0) eqn:Hm;
          cbn [bind marks marked_end position].
        -- comment_cases; reflexivity.
        -- apply Nat.eqb_neq in Hm.
           replace (n <? n + fst (content_run u0))%nat with true
             by (symmetry; apply Nat.ltb_lt; lia).
           reflexivity.
      * comment_cases; reflexivity.
  - intros vs ws c rest Hh Hc Hws Hl.
    destruct (letter_is_text c Hl) as [Hs Hw].
    unfold scan_kind, lexer_start. rewrite scan_eq. cbv zeta.
    rewrite whitespace_run_app, skipn_length_app, Hh by assumption.
    cbn [html_run]. rewrite Hs. reflexivity.
Qed.

Lemma first_match_wins_witness :
  scan_kind (symbols [CONTENT; HTML_CONTENT])
    (lexer_start (text "  " ++ chr "a" :: text "{{ b }}"))
  = Some (Some HTML_CONTENT).
Proof.
  apply (proj2 first_match_wins (symbols [CONTENT; HTML_CONTENT])
           (text "  ") (chr "a") (text "{{ b }}")); reflexivity.
Defined.

(** ** What a declining block leaves behind *)

Lemma content_run_declines (u : list Z) :
  fst (content_run u) = O ->
  snd (content_run u) = if at_opener u then 1%nat else O.
Proof.
  destruct u as [|c u]; simpl; [reflexivity|].
  destruct (Z.eqb_spec c 0) as [->|_]; [now intros|].
  destruct (c =? LBRACE); simpl.
  - destruct (opens_directive (hd 0 u)); simpl; [now intros|discriminate].
  - destruct (c =? LANGLE); simpl; [now intros|discriminate].
Qed.

(** Blocks that decline after reading: on two opening braces the content
    block declines with the read position moved from 0 to 1, and on an
    unterminated comment the comment block declines at the end of input. *)
Lemma declining_blocks_leak :
  (exists lx0 lx1 lx2,
      after_whitespace (lexer_start (text "{{")) = Some lx0
      /\ html_content_matcher (symbols [CONTENT]) lx0 = Some (false, lx1)
      /\ content_matcher (symbols [CONTENT]) lx1 = Some (false, lx2)
      /\ position lx1 = O
      /\ position lx2 = 1%nat)
  /\ (exists lx3,
         comment_matcher (lexer_start (text "# unterminated"))
         = Some (false, lx3)
         /\ position lx3 = 14%nat).
Proof.
  split.
  - do 3 eexists. vm_compute. repeat split.
  - eexists. vm_compute. split; reflexivity.
Qed.

(** C5, amended.  An HTML block that declines leaves the lexer exactly as it
    found it.  A content block that declines has read nothing, unless it was
    requested and found a directive opener (a brace followed by a brace, a
    percent sign or a hash): then it has read exactly that one brace, and
    nothing else of the lexer has changed.  A comment block that declines
    has read nothing when its lookahead was not a hash, and otherwise has
    read on to the end of input. *)
Theorem declining_block_frame :
  forall (vs : valid_symbols_t) (lx lx' : TSLexer),
    (html_content_matcher vs lx = Some (false, lx') -> lx' = lx)
    /\ (content_matcher vs lx = Some (false, lx') ->
        lx' = if vs (ordinal CONTENT) && at_opener (unread lx)
              then advance lx else lx)
    /\ (comment_matcher lx = Some (false, lx') ->
        if lookahead lx =? HASH
        then (position lx < position lx')%nat /\ lookahead lx' = 0
        else lx' = lx).
Proof.
  intros vs [u p s e r] lx'. split; [|split].
  - rewrite html_content_matcher_eq.
    destruct (vs (ordinal HTML_CONTENT) && negb (Nat.eqb (html_run u) 0));
      intros H; now inversion H.
  - rewrite content_matcher_eq. cbn [unread].
    destruct (vs (ordinal CONTENT)); cbn [andb];
      [|intros H; now inversion H].
    destruct (Nat.eqb (fst (content_run u)) 0) eqn:Hm;
      [|intros H; now inversion H].
    apply Nat.eqb_eq in Hm. rewrite (content_run_declines u Hm).
    intros H. inversion H. subst lx'. clear H.
    destruct (at_opener u) eqn:Ho.
    + destruct u as [|c u]; [discriminate|].
      unfold advance, lexer_advance. cbn. now rewrite Nat.add_1_r.
    + cbn. now rewrite Nat.add_0_r.
  - pose proof (comment_matcher_eq u p s e r) as Hm.
    unfold lookahead. cbn [unread position].
    destruct u as [|c u']; cbn [hd].
    + rewrite Hm. intros H. now inversion H.
    + destruct (c =? HASH).
      * destruct (comment_close u') as [k|].
        -- rewrite Hm. discriminate.
        -- destruct Hm as (lx1 & -> & Hp & Hl). intros H. inversion H.
           subst lx1. split; [lia|exact Hl].
      * rewrite Hm. intros H. now inversion H.
Qed.

Lemma declining_block_frame_witness :
  lexer_start (text "{# c #}") = lexer_start (text "{# c #}")
  /\ mkLexer (text "# c #}") 1 0 None None
     = (if symbols [CONTENT; HTML_CONTENT] (ordinal CONTENT)
           && at_opener (unread (lexer_start (text "{# c #}")))
        then advance (lexer_start (text "{# c #}"))
        else lexer_start (text "{# c #}"))
  /\ (if lookahead (lexer_start (text "#c")) =? HASH
      then (position (lexer_start (text "#c"))
            < position (mkLexer [] 2 0 (Some 1%nat) None))%nat
           /\ lookahead (mkLexer [] 2 0 (Some 1%nat) None) = 0
      else mkLexer [] 2 0 (Some 1%nat) None = lexer_start (text "#c")).
Proof.
  split; [|split].
  - apply (proj1 (declining_block_frame (symbols [CONTENT; HTML_CONTENT])
                    (lexer_start (text "{# c #}"))
                    (lexer_start (text "{# c #}")))).
    reflexivity.
  - apply (proj1 (proj2 (declining_block_frame
                           (symbols [CONTENT; HTML_CONTENT])
                           (lexer_start (text "{# c #}"))
                           (mkLexer (text "# c #}") 1 0 None None)))).
    reflexivity.
  - apply (proj2 (proj2 (declining_block_frame
                           (symbols [CONTENT; HTML_CONTENT])
                           (lexer_start (text "#c"))
                           (mkLexer [] 2 0 (Some 1%nat) None)))).
    reflexivity.
Defined.

(** The reading of the claim with every block in it fails on the same
    input. *)
Lemma no_consumption_leak_fails :
  ~ no_consumption_leak (symbols [CONTENT]) (lexer_start (text "{{")).
Proof.
  intros H.
  destruct (H _ eq_refl _ eq_refl) as [_ H2].
  destruct (H2 _ eq_refl) as [H3 _].
  discriminate H3.
Qed.

(** ** The requested kinds *)

(** C6.  When the scan succeeds the kind it emits is requested, or is the
    comment kind; so the HTML and the content kind are emitted only when
    their flag is set. *)
Theorem emitted_kind_requested :
  forall (vs : valid_symbols_t) (lexer lx : TSLexer),
    scan vs lexer = Some (true, lx) ->
    exists k,
      result_symbol lx = Some k
      /\ (requests vs k = true \/ k = COMMENT)
      /\ (k = HTML_CONTENT -> vs (ordinal HTML_CONTENT) = true)
      /\ (k = CONTENT -> vs (ordinal CONTENT) = true).
Proof.
  intros vs [u p s e r] lx. rewrite scan_eq. cbv zeta. unfold requests.
  assert (Hcomment : forall l,
             comment_matcher l = Some (true, lx) ->
             exists k, result_symbol lx = Some k
                       /\ (vs (ordinal k) = true \/ k = COMMENT)
                       /\ (k = HTML_CONTENT -> vs (ordinal HTML_CONTENT) = true)
                       /\ (k = CONTENT -> vs (ordinal CONTENT) = true)).
  { intros l Hl.
    destruct (comment_matcher_result l) as (ok & lx' & E & Hk).
    rewrite E in Hl. inversion Hl. subst ok lx'.
    exists COMMENT. rewrite Hk by reflexivity.
    repeat split; auto; discriminate. }
  destruct (vs (ordinal HTML_CONTENT)) eqn:Hh; cbn [andb].
  - destruct (negb (Nat.eqb (html_run (skipn (whitespace_run u) u)) 0)).
    + intros H. inversion H. exists HTML_CONTENT. cbn.
      repeat split; auto; discriminate.
    + destruct (vs (ordinal CONTENT)) eqn:Hc; [|apply Hcomment].
      destruct (Nat.eqb (fst (content_run (skipn (whitespace_run u) u))) 0);
        [apply Hcomment|].
      intros H. inversion H. exists CONTENT. cbn.
      repeat split; auto; discriminate.
  - destruct (vs (ordinal CONTENT)) eqn:Hc; [|apply Hcomment].
    destruct (Nat.eqb (fst (content_run (skipn (whitespace_run u) u))) 0);
      [apply Hcomment|].
    intros H. inversion H. exists CONTENT. cbn.
    repeat split; auto; discriminate.
Qed.

Lemma emitted_kind_requested_witness :
  exists k,
    result_symbol (mkLexer [] 6 0 (Some 6%nat) (Some COMMENT)) = Some k
    /\ (requests (symbols []) k = true \/ k = COMMENT)
    /\ (k = HTML_CONTENT -> symbols [] (ordinal HTML_CONTENT) = true)
    /\ (k = CONTENT -> symbols [] (ordinal CONTENT) = true).
Proof.
  apply (emitted_kind_requested (symbols []) (lexer_start (text "# c #}"))).
  vm_compute. reflexivity.
Defined.

(** The comment block does not look at the requested kinds: with nothing
    requested a closed comment is still returned. *)
Example comment_not_requested :
  scan_token (symbols []) (text "# c #}")
  = Some (Some (COMMENT, text "# c #}")).
Proof. vm_compute. reflexivity. Qed.

(** ** The enumeration *)

(** The enumerator values do not follow the order in which the kinds are
    tried: the HTML kind is tried before the content kind and has the larger
    value. *)
Lemma ordinals_against_priority :
  (priority HTML_CONTENT < priority CONTENT)%nat
  /\ (ordinal CONTENT < ordinal HTML_CONTENT)%nat.
Proof. cbn. lia. Qed.

Lemma ordinals_follow_priority_fails : ~ ordinals_follow_priority.
Proof.
  intros H. specialize (H HTML_CONTENT CONTENT). cbn in H. lia.
Qed.

(** C7, amended.  The enumeration has exactly three members, and their
    values are those of the declaration order: content 0, comment 1,
    HTML 2. *)
Theorem token_type_ordinals :
  (forall t : TokenType, In t TokenType_members)
  /\ NoDup TokenType_members
  /\ length TokenType_members = 3%nat
  /\ map ordinal TokenType_members = [0; 1; 2]%nat
  /\ ordinal CONTENT = 0%nat
  /\ ordinal COMMENT = 1%nat
  /\ ordinal HTML_CONTENT = 2%nat.
Proof.
  split; [intros []; cbn; auto|].
  split; [|repeat split].
  repeat constructor; cbn; intuition discriminate.
Qed.

(** ** The comment block *)

(** C8.  With neither the HTML nor the content kind requested, the closed
    comment of the specification is returned whole, opening hash and closer
    included.  An input that starts with a hash and has no closer after it
    never yields the comment kind, and yields no token when the comment
    block is reached, that is when neither of the other kinds is
    requested. *)
Theorem comment_closed_or_no_token :
  (forall vs : valid_symbols_t,
      vs (ordinal HTML_CONTENT) = false ->
      vs (ordinal CONTENT) = false ->
      scan_token vs (text "# this is a comment #}")
      = Some (Some (COMMENT, text "# this is a comment #}")))
  /\ (forall (vs : valid_symbols_t) (body : list Z),
         no_closer body = true ->
         (vs (ordinal HTML_CONTENT) = false ->
          vs (ordinal CONTENT) = false ->
          scan_token vs (HASH :: body) = Some None)
         /\ (forall span,
                scan_token vs (HASH :: body) <> Some (Some (COMMENT, span)))).
Proof.
  split.
  - intros vs Hh Hc. unfold scan_token, lexer_start. rewrite scan_eq.
    cbv zeta. rewrite Hh, Hc. vm_compute. reflexivity.
  - intros vs body Hb.
    pose proof (comment_close_no_closer (length body) body (le_n _) Hb) as Hn.
    pose proof (comment_matcher_eq (HASH :: body) 0 0 None None) as Hm.
    cbv beta iota in Hm. rewrite Z.eqb_refl, Hn in Hm.
    destruct Hm as (lx' & Hm & _).
    assert (Hw : whitespace_run (HASH :: body) = O) by reflexivity.
    assert (Hr : html_run (HASH :: body) = S (html_run body)) by reflexivity.
    assert (Hc : content_run (HASH :: body)
                 = (S (fst (content_run body)), S (snd (content_run body))))
      by reflexivity.
    unfold scan_token, lexer_start. rewrite scan_eq. cbv zeta.
    rewrite Hw. cbn [skipn Nat.add Nat.eqb]. rewrite Hr, Hc.
    cbn [fst snd Nat.eqb negb]. rewrite andb_true_r.
    split.
    + intros Hh Hcn. rewrite Hh, Hcn, Hm. reflexivity.
    + intros span. destruct (vs (ordinal HTML_CONTENT)); cbn [bind];
        [discriminate|].
      destruct (vs (ordinal CONTENT)); cbn [bind]; [discriminate|].
      rewrite Hm. discriminate.
Qed.

Lemma comment_closed_or_no_token_witness :
  scan_token (symbols []) (text "# this is a comment #}")
  = Some (Some (COMMENT, text "# this is a comment #}"))
  /\ scan_token (symbols []) (HASH :: text " unterminated") = Some None.
Proof.
  split.
  - apply (proj1 comment_closed_or_no_token (symbols [])); reflexivity.
  - apply (proj2 comment_closed_or_no_token (symbols [])
             (text " unterminated")); reflexivity.
Defined.

(** A closer is found when nothing before it is a hash or NUL. *)
Lemma comment_close_hash_free (pre post : list Z) :
  forallb (fun c => negb (c =? 0) && negb (c =? HASH)) pre = true ->
  comment_close (pre ++ HASH :: RBRACE :: post) = Some (length pre + 2)%nat.
Proof.
  induction pre as [|c pre IH]; intros H.
  - reflexivity.
  - cbn [forallb] in H. rewrite !andb_true_iff, !negb_true_iff in H.
    destruct H as [[H0 H1] H]. cbn [app comment_close length].
    rewrite H0, H1, IH by assumption. reflexivity.
Qed.

(** A hash inside the body that no closing brace follows is read together
    with the code point after it, whatever that one is. *)
Lemma comment_close_skips_pair (d : Z) (u : list Z) :
  d <> RBRACE ->
  comment_close (HASH :: d :: u)
  = option_map (fun k => S (S k)) (comment_close u).
Proof.
  intros Hd. cbn [comment_close].
  change (HASH =? 0) with false. rewrite Z.eqb_refl.
  apply Z.eqb_neq in Hd. now rewrite Hd.
Qed.

(** C4, the defect.  On a hash, a letter, two hashes and a closing brace the
    scan returns no token, although the closer stands at the end of the
    input: the first of the two hashes is not followed by a closing brace,
    and the loop reads the second one along with it. *)
Theorem comment_closer_missed :
  has_closer (text "a##}")
  /\ scan_token (symbols []) (text "#a##}") = Some None
  /\ scan_token (symbols []) (text "#a#}")
     = Some (Some (COMMENT, text "#a#}")).
Proof.
  split; [|split; vm_compute; reflexivity].
  exists (text "a#"), []. reflexivity.
Qed.

(** ** Degenerate input *)

(** Every scan returns. *)
Lemma scan_returns (vs : valid_symbols_t) (lexer : TSLexer) :
  exists ok lx, scan vs lexer = Some (ok, lx).
Proof.
  destruct lexer as [u p s e r]. rewrite scan_eq. cbv zeta.
  destruct (vs (ordinal HTML_CONTENT) && _); [eauto|].
  destruct (vs (ordinal CONTENT)).
  - destruct (Nat.eqb _ 0); [|eauto].
    match goal with
    | |- context [comment_matcher ?l] =>
        destruct (comment_matcher_result l) as (ok & lx & E & _)
    end.
    eauto.
  - match goal with
    | |- context [comment_matcher ?l] =>
        destruct (comment_matcher_result l) as (ok & lx & E & _)
    end.
    eauto.
Qed.

(** C9.  Every call of the scan returns a flag and a lexer, whatever is
    requested and whatever the lexer holds; on input that is empty or all
    whitespace it returns [false], with the whitespace read and nothing
    marked. *)
Theorem scan_total :
  (forall (vs : valid_symbols_t) (lexer : TSLexer),
      exists ok lx, scan vs lexer = Some (ok, lx))
  /\ (forall vs : valid_symbols_t,
         scan vs (lexer_start []) = Some (false, lexer_start []))
  /\ (forall (vs : valid_symbols_t) (ws : list Z),
         forallb iswspace ws = true ->
         scan vs (lexer_start ws)
         = Some (false, mkLexer [] (length ws) (length ws) None None)
         /\ scan_token vs ws = Some None).
Proof.
  split; [exact scan_returns|].
  assert (H : forall (vs : valid_symbols_t) (ws : list Z),
             forallb iswspace ws = true ->
             scan vs (lexer_start ws)
             = Some (false, mkLexer [] (length ws) (length ws) None None)).
  { intros vs ws Hws. unfold lexer_start. rewrite scan_eq. cbv zeta.
    rewrite whitespace_run_all, skipn_all by assumption.
    cbn [html_run content_run fst snd Nat.eqb negb skipn Nat.add].
    rewrite andb_false_r, Nat.add_0_r.
    replace (if Nat.eqb (length ws) 0 then O else length ws)
      with (length ws) by (now destruct (length ws)).
    destruct (vs (ordinal CONTENT)); reflexivity. }
  split.
  - intros vs. exact (H vs [] eq_refl).
  - intros vs ws Hws. split; [now apply H|].
    unfold scan_token. rewrite H by assumption. reflexivity.
Qed.

Lemma scan_total_witness :
  scan (symbols [CONTENT; HTML_CONTENT]) (lexer_start (text "   "))
  = Some (false, mkLexer [] (length (text "   ")) (length (text "   "))
                   None None)
  /\ scan_token (symbols [CONTENT; HTML_CONTENT]) (text "   ") = Some None.
Proof.
  apply (proj2 (proj2 scan_total) (symbols [CONTENT; HTML_CONTENT])
           (text "   ")).
  reflexivity.
Defined.

(** ** Comments behind a brace *)

(** What the scan makes of a brace and a hash: with the content kind
    requested the content block reads the brace and declines, and the comment
    block runs on the hash; without it the comment block sees the brace. *)
Lemma brace_hash_comment_gated (vs : valid_symbols_t) (ws body : list Z) :
  forallb iswspace ws = true ->
  scan_kind vs (lexer_start (ws ++ LBRACE :: HASH :: body))
  = Some (if vs (ordinal CONTENT)
          then match comment_close body with
               | Some _ => Some COMMENT
               | None => None
               end
          else None).
Proof.
  intros Hws. unfold scan_kind, lexer_start. rewrite scan_eq. cbv zeta.
  rewrite whitespace_run_app, skipn_length_app by (auto; reflexivity).
  assert (Hr : html_run (LBRACE :: HASH :: body) = O) by reflexivity.
  assert (Hc : content_run (LBRACE :: HASH :: body) = (O, 1%nat))
    by reflexivity.
  rewrite Hr, Hc. cbn [Nat.eqb negb fst snd skipn]. rewrite andb_false_r.
  destruct (vs (ordinal CONTENT)).
  - match goal with
    | |- context [comment_matcher (mkLexer ?u ?p ?s ?e ?r)] =>
        pose proof (comment_matcher_eq u p s e r) as Hm
    end.
    cbv beta iota in Hm. rewrite Z.eqb_refl in Hm.
    destruct (comment_close body) as [k|].
    + rewrite Hm. reflexivity.
    + destruct Hm as (lx' & -> & _). reflexivity.
  - reflexivity.
Qed.

(** C10, the defect.  Behind a brace and a hash, with the content kind
    requested and a closer in the input, the scan still returns no token
    when the closer directly follows another hash. *)
Theorem brace_hash_closer_missed :
  has_closer (text "a##}")
  /\ scan_token (symbols [CONTENT]) (text "{#a##}") = Some None
  /\ scan_token (symbols [CONTENT]) (text "{#a#}")
     = Some (Some (COMMENT, text "{#a#}"))
  /\ scan_token (symbols []) (text "{#a#}") = Some None.
Proof.
  split; [|repeat split; vm_compute; reflexivity].
  exists (text "a#"), []. reflexivity.
Qed.

(** * Further properties of the scan

    The rest of this file is about [scan] on arbitrary input: what a token
    of each kind looks like, where the lexer stands afterwards, and what the
    scan does not depend on. *)

(** ** The scan on lists *)

(** The comment block seen from the start [u0] of the token, [skipped] code
    points of which the content block has read. *)
Definition comment_span (skipped : nat) (u0 : list Z)
  : option (TokenType * list Z) :=
  match skipn skipped u0 with
  | c :: body =>
      if c =? HASH
      then match comment_close body with
           | Some j => Some (COMMENT, firstn (S (skipped + j)) u0)
           | None => None
           end
      else None
  | [] => None
  end.

(** Kind and span of the token at the start of [u0], the input behind the
    leading whitespace. *)
Definition scan_span (vs : valid_symbols_t) (u0 : list Z)
  : option (TokenType * list Z) :=
  if vs (ordinal HTML_CONTENT) && negb (Nat.eqb (html_run u0) 0)
  then Some (HTML_CONTENT, firstn (html_run u0) u0)
  else if vs (ordinal CONTENT)
  then if Nat.eqb (fst (content_run u0)) 0
       then comment_span (snd (content_run u0)) u0
       else Some (CONTENT, firstn (fst (content_run u0)) u0)
  else comment_span 0 u0.

Lemma comment_matcher_span (input u0 : list Z) (n k : nat) :
  u0 = skipn n input ->
  bind (comment_matcher (mkLexer (skipn k u0) (n + k) n None None))
    (fun x => let '(ok, lx) := x in
              if ok
              then match result_symbol lx with
                   | Some t => Some (Some (t, token_span input lx))
                   | None => None
                   end
              else Some None)
  = Some (comment_span k u0).
Proof.
  intros Hu. unfold comment_span.
  pose proof (comment_matcher_eq (skipn k u0) (n + k) n None None) as Hm.
  destruct (skipn k u0) as [|c body]; [now rewrite Hm|].
  destruct (c =? HASH); [|now rewrite Hm].
  destruct (comment_close body) as [j|].
  - rewrite Hm. cbn [bind result_symbol]. unfold token_span.
    cbn [token_end token_start marked_end]. rewrite <- Hu.
    replace (S (n + k) + j - n)%nat with (S (k + j)) by lia. reflexivity.
  - destruct Hm as (lx' & -> & _). reflexivity.
Qed.

(** [scan_token] computes [scan_span] behind the leading whitespace. *)
Lemma scan_token_eq (vs : valid_symbols_t) (input : list Z) :
  scan_token vs input
  = Some (scan_span vs (skipn (whitespace_run input) input)).
Proof.
  unfold scan_token, scan_span, lexer_start. rewrite scan_eq. cbv zeta.
  cbn [Nat.add].
  set (n := whitespace_run input). set (u0 := skipn n input).
  replace (if Nat.eqb n 0 then O else n) with n by (now destruct n).
  destruct (vs (ordinal HTML_CONTENT) && negb (Nat.eqb (html_run u0) 0)).
  - cbn [bind result_symbol]. unfold token_span.
    cbn [token_end token_start marked_end]. fold u0.
    replace (n + html_run u0 - n)%nat with (html_run u0) by lia.
    reflexivity.
  - destruct (vs (ordinal CONTENT)).
    + destruct (Nat.eqb (fst (content_run u0)) 0).
      * now apply comment_matcher_span.
      * cbn [bind result_symbol]. unfold token_span.
        cbn [token_end token_start marked_end]. fold u0.
        replace (n + fst (content_run u0) - n)%nat
          with (fst (content_run u0)) by lia.
        reflexivity.
    + pose proof (comment_matcher_span input u0 n 0 eq_refl) as H.
      cbn [skipn] in H. rewrite Nat.add_0_r in H. exact H.
Qed.

Lemma whitespace_run_app_any (ws u : list Z) :
  forallb iswspace ws = true ->
  whitespace_run (ws ++ u) = (length ws + whitespace_run u)%nat.
Proof.
  intros Hws. induction ws as [|c ws IH]; [reflexivity|].
  cbn [forallb] in Hws. apply andb_true_iff in Hws as [Hc Hws].
  cbn [app whitespace_run length Nat.add]. now rewrite Hc, IH.
Qed.

(** X1.  Whitespace in front of the input changes neither the kind nor the
    span of the token the scan returns. *)
Theorem leading_whitespace_ignored :
  forall (vs : valid_symbols_t) (ws input : list Z),
    forallb iswspace ws = true ->
    scan_token vs (ws ++ input) = scan_token vs input.
Proof.
  intros vs ws input Hws. rewrite !scan_token_eq.
  rewrite whitespace_run_app_any by assumption.
  now rewrite skipn_length_plus_app.
Qed.

Lemma leading_whitespace_ignored_witness :
  scan_token (symbols [CONTENT]) (text "  " ++ text "a{b")
  = scan_token (symbols [CONTENT]) (text "a{b").
Proof.
  apply (leading_whitespace_ignored (symbols [CONTENT]) (text "  ")
           (text "a{b")).
  reflexivity.
Defined.

(** X2.  The scan reads two entries of [valid_symbols], the one of the HTML
    kind and the one of the content kind; arrays that agree on these two
    give the same result on every lexer, whatever they hold for the comment
    kind or elsewhere. *)
Theorem scan_reads_two_flags :
  forall (vs vs' : valid_symbols_t) (lexer : TSLexer),
    vs (ordinal HTML_CONTENT) = vs' (ordinal HTML_CONTENT) ->
    vs (ordinal CONTENT) = vs' (ordinal CONTENT) ->
    scan vs lexer = scan vs' lexer.
Proof.
  intros vs vs' [u p s e r] Hh Hc. rewrite !scan_eq. cbv zeta.
  now rewrite Hh, Hc.
Qed.

Lemma scan_reads_two_flags_witness :
  scan (symbols [CONTENT]) (lexer_start (text "{# c #}"))
  = scan (symbols [CONTENT; COMMENT]) (lexer_start (text "{# c #}")).
Proof.
  apply (scan_reads_two_flags (symbols [CONTENT]) (symbols [CONTENT; COMMENT])
           (lexer_start (text "{# c #}"))); reflexivity.
Defined.

(** ** The shape of a token *)

Lemma whitespace_prefix (u : list Z) :
  forallb iswspace (firstn (whitespace_run u) u) = true.
Proof.
  induction u as [|c u IH]; [reflexivity|]. cbn [whitespace_run].
  destruct (iswspace c) eqn:Hc; [|reflexivity].
  cbn [firstn forallb]. now rewrite Hc, IH.
Qed.

Lemma html_prefix (u : list Z) :
  forallb (fun c => negb (html_stop c)) (firstn (html_run u) u) = true
  /\ html_stop (hd 0 (skipn (html_run u) u)) = true.
Proof.
  induction u as [|c u [IH1 IH2]]; [split; reflexivity|]. cbn [html_run].
  destruct (html_stop c) eqn:Hc; [split; [reflexivity|exact Hc]|].
  cbn [firstn forallb skipn]. rewrite Hc, IH1. split; [reflexivity|exact IH2].
Qed.

Lemma hd_firstn_skipn (m : nat) (u : list Z) :
  hd (hd 0 (skipn m u)) (firstn m u) = hd 0 u.
Proof. destruct m, u; reflexivity. Qed.

Lemma content_prefix (u : list Z) :
  plain_content (firstn (fst (content_run u)) u)
    (hd 0 (skipn (fst (content_run u)) u)) = true
  /\ content_stop (skipn (fst (content_run u)) u) = true.
Proof.
  induction u as [|c u [IH1 IH2]]; [split; reflexivity|].
  cbn [content_run].
  destruct (c =? 0) eqn:E0;
    [cbn [fst firstn skipn plain_content content_stop]; now rewrite E0|].
  destruct (c =? LBRACE) eqn:E1.
  - destruct (opens_directive (hd 0 u)) eqn:Eo.
    + cbn [fst firstn skipn plain_content content_stop hd].
      now rewrite E1, Eo, !orb_true_r.
    + cbn [fst firstn skipn plain_content].
      rewrite hd_firstn_skipn, E0, E1, Eo, IH1.
      apply Z.eqb_eq in E1. subst c. split; [reflexivity|exact IH2].
  - destruct (c =? LANGLE) eqn:E2.
    + cbn [fst firstn skipn plain_content content_stop].
      now rewrite E2, orb_true_r.
    + cbn [fst firstn skipn plain_content].
      rewrite E0, E1, E2, IH1. split; [reflexivity|exact IH2].
Qed.

Lemma comment_close_shape (n : nat) :
  forall u, (length u <= n)%nat ->
  forall j, comment_close u = Some j ->
    (j <= length u)%nat
    /\ exists mid, firstn j u = mid ++ [HASH; RBRACE].
Proof.
  induction n as [|n IH]; intros u Hn j Hj.
  - destruct u; [discriminate|simpl in Hn; lia].
  - destruct u as [|c u1]; [discriminate|].
    cbn [length] in Hn. cbn [comment_close] in Hj.
    destruct (c =? 0); [discriminate|].
    destruct (c =? HASH) eqn:Ec.
    + apply Z.eqb_eq in Ec. subst c.
      destruct u1 as [|d u2]; [discriminate|]. cbn [length] in Hn.
      destruct (d =? RBRACE) eqn:Ed.
      * apply Z.eqb_eq in Ed. subst d. inversion Hj. subst j.
        split; [cbn; lia|]. exists []. reflexivity.
      * destruct (comment_close u2) as [k|] eqn:Ek; [|discriminate].
        inversion Hj. subst j.
        destruct (IH u2 ltac:(lia) k Ek) as [Hk [mid Hmid]].
        split; [cbn; lia|]. exists (HASH :: d :: mid).
        cbn [firstn app]. now rewrite Hmid.
    + destruct (comment_close u1) as [k|] eqn:Ek; [|discriminate].
      inversion Hj. subst j.
      destruct (IH u1 ltac:(lia) k Ek) as [Hk [mid Hmid]].
      split; [cbn; lia|]. exists (c :: mid).
      cbn [firstn app]. now rewrite Hmid.
Qed.

Lemma comment_span_kind (k : nat) (u : list Z) (t : TokenType) sp :
  comment_span k u = Some (t, sp) -> t = COMMENT.
Proof.
  unfold comment_span. destruct (skipn k u) as [|c body]; [discriminate|].
  destruct (c =? HASH); [|discriminate].
  destruct (comment_close body); [|discriminate].
  intros H. now inversion H.
Qed.

(** The input splits into its leading whitespace and the rest. *)
Lemma whitespace_split (input : list Z) :
  input = firstn (whitespace_run input) input
          ++ skipn (whitespace_run input) input.
Proof. symmetry. apply firstn_skipn. Qed.

(** X3.  Whenever the scan returns the HTML kind, that kind was requested
    and the input is whitespace, then the span, then a rest that is empty or
    begins with an opening angle bracket, a brace or NUL; the span is not
    empty, does not begin with whitespace and holds none of these three. *)
Theorem html_token_shape :
  forall (vs : valid_symbols_t) (input span : list Z),
    scan_token vs input = Some (Some (HTML_CONTENT, span)) ->
    vs (ordinal HTML_CONTENT) = true
    /\ span <> []
    /\ iswspace (hd 0 span) = false
    /\ forallb (fun c => negb (html_stop c)) span = true
    /\ exists ws rest,
         input = ws ++ span ++ rest
         /\ forallb iswspace ws = true
         /\ html_stop (hd 0 rest) = true.
Proof.
  intros vs input span. rewrite scan_token_eq. unfold scan_span.
  pose proof (whitespace_run_skipn input) as Hw.
  pose proof (whitespace_split input) as Hi.
  set (u0 := skipn (whitespace_run input) input) in *.
  destruct (vs (ordinal HTML_CONTENT)) eqn:Hh; cbn [andb].
  - destruct (Nat.eqb (html_run u0) 0) eqn:Hr; cbn [negb].
    + destruct (vs (ordinal CONTENT)).
      * destruct (Nat.eqb (fst (content_run u0)) 0); [|discriminate].
        intros H. inversion H as [H1].
        apply comment_span_kind in H1. discriminate.
      * intros H. inversion H as [H1].
        apply comment_span_kind in H1. discriminate.
    + intros H. inversion H. clear H.
      destruct (html_prefix u0) as [Hp Hs].
      apply Nat.eqb_neq in Hr.
      split; [reflexivity|].
      split; [destruct u0; [contradiction|]; destruct (html_run (z :: u0));
              [contradiction|discriminate]|].
      split; [destruct (html_run u0), u0; try contradiction; exact Hw|].
      split; [exact Hp|].
      exists (firstn (whitespace_run input) input), (skipn (html_run u0) u0).
      rewrite firstn_skipn. repeat split; auto using whitespace_prefix.
  - destruct (vs (ordinal CONTENT)).
    + destruct (Nat.eqb (fst (content_run u0)) 0); [|discriminate].
      intros H. inversion H as [H1].
      apply comment_span_kind in H1. discriminate.
    + intros H. inversion H as [H1].
      apply comment_span_kind in H1. discriminate.
Qed.

Lemma html_token_shape_witness :
  symbols [HTML_CONTENT] (ordinal HTML_CONTENT) = true
  /\ text "abc" <> []
  /\ iswspace (hd 0 (text "abc")) = false
  /\ forallb (fun c => negb (html_stop c)) (text "abc") = true
  /\ exists ws rest,
       text " abc<div>" = ws ++ text "abc" ++ rest
       /\ forallb iswspace ws = true
       /\ html_stop (hd 0 rest) = true.
Proof.
  apply (html_token_shape (symbols [HTML_CONTENT]) (text " abc<div>")
           (text "abc")).
  reflexivity.
Defined.

(** X4.  Whenever the scan returns the content kind, that kind was
    requested, the HTML block was not requested or saw a brace, and the
    input is whitespace, then the span, then a rest that is empty or begins
    with NUL, an opening angle bracket or a directive opener; the span is
    not empty, does not begin with whitespace, and is plain content: no NUL,
    no opening angle bracket, and no brace directly followed by a brace, a
    percent sign or a hash. *)
Theorem content_token_shape :
  forall (vs : valid_symbols_t) (input span : list Z),
    scan_token vs input = Some (Some (CONTENT, span)) ->
    vs (ordinal CONTENT) = true
    /\ (vs (ordinal HTML_CONTENT) = false \/ hd 0 span = LBRACE)
    /\ span <> []
    /\ iswspace (hd 0 span) = false
    /\ exists ws rest,
         input = ws ++ span ++ rest
         /\ forallb iswspace ws = true
         /\ plain_content span (hd 0 rest) = true
         /\ content_stop rest = true.
Proof.
  intros vs input span. rewrite scan_token_eq. unfold scan_span.
  pose proof (whitespace_run_skipn input) as Hw.
  pose proof (whitespace_split input) as Hi.
  set (u0 := skipn (whitespace_run input) input) in *.
  assert (Hcomment : forall k,
             comment_span k u0 <> Some (CONTENT, span)).
  { intros k H. apply comment_span_kind in H. discriminate. }
  destruct (vs (ordinal HTML_CONTENT) && negb (Nat.eqb (html_run u0) 0))
    eqn:Hh; [discriminate|].
  destruct (vs (ordinal CONTENT)) eqn:Hc;
    [|intros H; inversion H as [H1]; now apply Hcomment in H1].
  destruct (Nat.eqb (fst (content_run u0)) 0) eqn:Hm;
    [intros H; inversion H as [H1]; now apply Hcomment in H1|].
  intros H. inversion H. clear H.
  destruct (content_prefix u0) as [Hp Hs].
  apply Nat.eqb_neq in Hm.
  assert (Hhd : hd 0 (firstn (fst (content_run u0)) u0) = hd 0 u0).
  { destruct (fst (content_run u0)); [contradiction|]. now destruct u0. }
  assert (Hu : u0 <> []) by (intros E; rewrite E in Hm; now apply Hm).
  assert (Hne : firstn (fst (content_run u0)) u0 <> []).
  { destruct (fst (content_run u0)); [contradiction|].
    destruct u0 as [|c u1]; [now contradiction Hu|discriminate]. }
  split; [reflexivity|].
  split.
  { apply andb_false_iff in Hh as [Hh|Hh]; [now left|right].
    apply negb_false_iff in Hh. rewrite html_run_0 in Hh. rewrite Hhd.
    destruct (firstn (fst (content_run u0)) u0) as [|c sp] eqn:Ef;
      [contradiction|].
    cbn [hd] in Hhd. rewrite <- Hhd in Hh. cbn [plain_content] in Hp.
    rewrite !andb_true_iff, !negb_true_iff in Hp.
    destruct Hp as [[[Hc0 Hc1] _] _]. unfold html_stop in Hh.
    rewrite Hc0, Hc1 in Hh. cbn [orb] in Hh. rewrite <- Hhd.
    now apply Z.eqb_eq. }
  split; [exact Hne|].
  split; [now rewrite Hhd|].
  exists (firstn (whitespace_run input) input),
    (skipn (fst (content_run u0)) u0).
  rewrite firstn_skipn. repeat split; auto using whitespace_prefix.
Qed.

Lemma content_token_shape_witness :
  symbols [CONTENT] (ordinal CONTENT) = true
  /\ (symbols [CONTENT] (ordinal HTML_CONTENT) = false
      \/ hd 0 (text "a{b ") = LBRACE)
  /\ text "a{b " <> []
  /\ iswspace (hd 0 (text "a{b ")) = false
  /\ exists ws rest,
       text " a{b {% if %}" = ws ++ text "a{b " ++ rest
       /\ forallb iswspace ws = true
       /\ plain_content (text "a{b ") (hd 0 rest) = true
       /\ content_stop rest = true.
Proof.
  apply (content_token_shape (symbols [CONTENT]) (text " a{b {% if %}")
           (text "a{b ")).
  reflexivity.
Defined.

Lemma comment_span_inv (k : nat) (u : list Z) (t : TokenType) sp :
  comment_span k u = Some (t, sp) ->
  exists body j mid,
    skipn k u = HASH :: body
    /\ comment_close body = Some j
    /\ (j <= length body)%nat
    /\ firstn j body = mid ++ [HASH; RBRACE]
    /\ sp = firstn (S (k + j)) u.
Proof.
  unfold comment_span. destruct (skipn k u) as [|c body]; [discriminate|].
  destruct (c =? HASH) eqn:Ec; [|discriminate].
  apply Z.eqb_eq in Ec. subst c.
  destruct (comment_close body) as [j|] eqn:Ej; [|discriminate].
  intros H. inversion H. subst.
  destruct (comment_close_shape (length body) body (le_n _) j Ej)
    as [Hj [mid Hmid]].
  exists body, j, mid. auto.
Qed.

(** X5.  Whenever the scan returns the comment kind, the input is
    whitespace, then the span, then a rest, and the span has one of two
    forms: a hash, a body and the closer, with neither the HTML nor the
    content kind requested; or a brace, a hash, a body and the closer, with
    the content kind requested. *)
Theorem comment_token_shape :
  forall (vs : valid_symbols_t) (input span : list Z),
    scan_token vs input = Some (Some (COMMENT, span)) ->
    exists ws mid rest,
      input = ws ++ span ++ rest
      /\ forallb iswspace ws = true
      /\ ((span = HASH :: mid ++ [HASH; RBRACE]
           /\ vs (ordinal HTML_CONTENT) = false
           /\ vs (ordinal CONTENT) = false)
          \/ (span = LBRACE :: HASH :: mid ++ [HASH; RBRACE]
              /\ vs (ordinal CONTENT) = true)).
Proof.
  intros vs input span. rewrite scan_token_eq. unfold scan_span.
  pose proof (whitespace_split input) as Hi.
  set (u0 := skipn (whitespace_run input) input) in *.
  destruct (vs (ordinal HTML_CONTENT) && negb (Nat.eqb (html_run u0) 0))
    eqn:Hh; [discriminate|].
  destruct (vs (ordinal CONTENT)) eqn:Hc.
  - destruct (Nat.eqb (fst (content_run u0)) 0) eqn:Hm; [|discriminate].
    apply Nat.eqb_eq in Hm. rewrite (content_run_declines u0 Hm).
    intros H. inversion H as [H1]. clear H.
    apply comment_span_inv in H1.
    destruct H1 as (body & j & mid & Hs & Hj & Hl & Hmid & Hsp).
    destruct (at_opener u0) eqn:Ho.
    + destruct u0 as [|c u1] eqn:Eu; [discriminate|].
      cbn [at_opener] in Ho. apply andb_true_iff in Ho as [Ho _].
      apply Z.eqb_eq in Ho. subst c. cbn [skipn] in Hs. subst u1.
      exists (firstn (whitespace_run input) input), mid, (skipn j body).
      split; [|split; [apply whitespace_prefix|right; split; [|reflexivity]]].
      * rewrite Hi at 1. rewrite Hsp. cbn [Nat.add firstn app].
        now rewrite firstn_skipn.
      * rewrite Hsp. cbn [Nat.add firstn]. now rewrite Hmid.
    + cbn [skipn] in Hs. rewrite Hs in Hm. discriminate Hm.
  - intros H. inversion H as [H1]. clear H.
    apply comment_span_inv in H1.
    destruct H1 as (body & j & mid & Hs & Hj & Hl & Hmid & Hsp).
    cbn [skipn] in Hs.
    exists (firstn (whitespace_run input) input), mid, (skipn j body).
    split; [|split; [apply whitespace_prefix|left; split; [|split]]].
    + rewrite Hi at 1. rewrite Hsp, Hs. cbn [Nat.add firstn app].
      now rewrite firstn_skipn.
    + rewrite Hsp, Hs. cbn [Nat.add firstn]. now rewrite Hmid.
    + rewrite Hs in Hh. cbn [html_run] in Hh.
      change (html_stop HASH) with false in Hh. cbn in Hh.
      now rewrite andb_true_r in Hh.
    + reflexivity.
Qed.

Lemma comment_token_shape_witness :
  exists ws mid rest,
    text " {# c #} x" = ws ++ text "{# c #}" ++ rest
    /\ forallb iswspace ws = true
    /\ ((text "{# c #}" = HASH :: mid ++ [HASH; RBRACE]
         /\ symbols [CONTENT] (ordinal HTML_CONTENT) = false
         /\ symbols [CONTENT] (ordinal CONTENT) = false)
        \/ (text "{# c #}" = LBRACE :: HASH :: mid ++ [HASH; RBRACE]
            /\ symbols [CONTENT] (ordinal CONTENT) = true)).
Proof.
  apply (comment_token_shape (symbols [CONTENT]) (text " {# c #} x")
           (text "{# c #}")).
  reflexivity.
Defined.

(** ** The lexer after a scan *)

Lemma whitespace_run_le (u : list Z) : (whitespace_run u <= length u)%nat.
Proof.
  induction u as [|c u IH]; simpl; [lia|]. destruct (iswspace c); lia.
Qed.

Lemma html_run_le (u : list Z) : (html_run u <= length u)%nat.
Proof.
  induction u as [|c u IH]; simpl; [lia|]. destruct (html_stop c); lia.
Qed.

Lemma content_run_bounds (u : list Z) :
  (fst (content_run u) <= snd (content_run u) <= S (fst (content_run u)))%nat
  /\ (snd (content_run u) <= length u)%nat.
Proof.
  induction u as [|c u IH]; cbn [content_run length]; [cbn; lia|].
  destruct (c =? 0); [cbn; lia|].
  destruct (c =? LBRACE);
    [destruct (opens_directive (hd 0 u)); cbn [fst snd]; lia|].
  destruct (c =? LANGLE); cbn [fst snd]; lia.
Qed.

Lemma comment_matcher_success u p s e r (lx : TSLexer) :
  comment_matcher (mkLexer u p s e r) = Some (true, lx) ->
  exists body j,
    u = HASH :: body
    /\ comment_close body = Some j
    /\ lx = mkLexer (skipn j body) (S p + j) s (Some (S p + j)%nat)
              (Some COMMENT).
Proof.
  pose proof (comment_matcher_eq u p s e r) as Hm.
  destruct u as [|c u']; [rewrite Hm; discriminate|].
  destruct (c =? HASH) eqn:Ec; [|rewrite Hm; discriminate].
  apply Z.eqb_eq in Ec. subst c.
  destruct (comment_close u') as [j|] eqn:Ej.
  - rewrite Hm. intros H. inversion H. eauto.
  - destruct Hm as (lx' & -> & _). discriminate.
Qed.

(** X6.  After a successful scan of [input] the token starts right behind
    the leading whitespace and is not empty, its end is marked, the read
    position is at the end of the token or one code point behind it and
    within the input, and the unread part is the input from the read
    position on. *)
Theorem successful_scan_lexer :
  forall (vs : valid_symbols_t) (input : list Z) (lx : TSLexer),
    scan vs (lexer_start input) = Some (true, lx) ->
    token_start lx = whitespace_run input
    /\ marked_end lx = Some (token_end lx)
    /\ (token_start lx < token_end lx)%nat
    /\ (token_end lx <= position lx <= S (token_end lx))%nat
    /\ (position lx <= length input)%nat
    /\ unread lx = skipn (position lx) input.
Proof.
  intros vs input lx. unfold lexer_start. rewrite scan_eq. cbv zeta.
  cbn [Nat.add].
  pose proof (whitespace_run_le input) as Hn.
  set (n := whitespace_run input) in *.
  assert (Hlen : length (skipn n input) = (length input - n)%nat)
    by apply length_skipn.
  set (u0 := skipn n input) in *.
  replace (if Nat.eqb n 0 then O else n) with n by (now destruct n).
  pose proof (html_run_le u0) as Hh.
  pose proof (content_run_bounds u0) as [Hc1 Hc2].
  assert (Hskip : forall k, skipn k u0 = skipn (n + k) input).
  { intros k. unfold u0. rewrite skipn_skipn. f_equal. lia. }
  assert (Hcomment : forall k,
             (k <= length u0)%nat ->
             comment_matcher (mkLexer (skipn k u0) (n + k) n None None)
             = Some (true, lx) ->
             token_start lx = n
             /\ marked_end lx = Some (token_end lx)
             /\ (token_start lx < token_end lx)%nat
             /\ (token_end lx <= position lx <= S (token_end lx))%nat
             /\ (position lx <= length input)%nat
             /\ unread lx = skipn (position lx) input).
  { intros k Hk H. apply comment_matcher_success in H.
    destruct H as (body & j & Hu & Hj & ->).
    destruct (comment_close_shape (length body) body (le_n _) j Hj)
      as [Hjl _].
    assert (Hl : length (skipn k u0) = S (length body)) by now rewrite Hu.
    rewrite length_skipn in Hl.
    cbn [token_start token_end marked_end position unread].
    repeat split; try lia.
    replace (skipn j body) with (skipn j (skipn 1 (skipn k u0)))
      by now rewrite Hu.
    rewrite Hskip, !skipn_skipn. f_equal. lia. }
  destruct (vs (ordinal HTML_CONTENT) && negb (Nat.eqb (html_run u0) 0))
    eqn:E1.
  - apply andb_true_iff in E1 as [_ E1]. apply negb_true_iff in E1.
    apply Nat.eqb_neq in E1. intros H. inversion H. clear H.
    cbn [token_start token_end marked_end position unread].
    rewrite Hskip. repeat split; lia.
  - destruct (vs (ordinal CONTENT)).
    + destruct (Nat.eqb (fst (content_run u0)) 0) eqn:E2.
      * apply Hcomment. lia.
      * apply Nat.eqb_neq in E2. intros H. inversion H. clear H.
        cbn [token_start token_end marked_end position unread].
        rewrite Hskip. repeat split; lia.
    + intros H. apply (Hcomment O); [lia|].
      cbn [skipn]. now rewrite Nat.add_0_r.
Qed.

Lemma successful_scan_lexer_witness :
  token_start (mkLexer (text "{ x") 9 2 (Some 8%nat) (Some CONTENT))
  = whitespace_run (text "  hello {{ x")
  /\ marked_end (mkLexer (text "{ x") 9 2 (Some 8%nat) (Some CONTENT))
     = Some (token_end (mkLexer (text "{ x") 9 2 (Some 8%nat) (Some CONTENT)))
  /\ (token_start (mkLexer (text "{ x") 9 2 (Some 8%nat) (Some CONTENT))
      < token_end (mkLexer (text "{ x") 9 2 (Some 8%nat) (Some CONTENT)))%nat
  /\ (token_end (mkLexer (text "{ x") 9 2 (Some 8%nat) (Some CONTENT))
      <= position (mkLexer (text "{ x") 9 2 (Some 8%nat) (Some CONTENT))
      <= S (token_end (mkLexer (text "{ x") 9 2 (Some 8%nat) (Some CONTENT))))%nat
  /\ (position (mkLexer (text "{ x") 9 2 (Some 8%nat) (Some CONTENT))
      <= length (text "  hello {{ x"))%nat
  /\ unread (mkLexer (text "{ x") 9 2 (Some 8%nat) (Some CONTENT))
     = skipn (position (mkLexer (text "{ x") 9 2 (Some 8%nat) (Some CONTENT)))
         (text "  hello {{ x").
Proof.
  apply (successful_scan_lexer (symbols [CONTENT]) (text "  hello {{ x")).
  reflexivity.
Defined.

Lemma result_symbol_advance (lx : TSLexer) :
  result_symbol (advance lx) = result_symbol lx.
Proof. unfold advance, lexer_advance. now destruct (unread lx). Qed.

Lemma comment_loop_false_result (fuel : nat) :
  forall lx lx',
    comment_loop fuel lx = Some (false, lx') ->
    result_symbol lx' = result_symbol lx.
Proof.
  induction fuel as [|fuel IH]; intros lx lx'; [discriminate|].
  cbn [comment_loop].
  destruct (lookahead lx =? 0); [intros H; now inversion H|].
  destruct (lookahead (mark_end lx) =? HASH).
  - destruct (lookahead (advance (mark_end lx)) =? RBRACE); [discriminate|].
    intros H. apply IH in H. now rewrite H, !result_symbol_advance.
  - intros H. apply IH in H. now rewrite H, result_symbol_advance.
Qed.

(** X7.  A scan that returns [false] has not written [result_symbol]: the
    field holds what it held before the call. *)
Theorem failed_scan_keeps_result_symbol :
  forall (vs : valid_symbols_t) (lexer lx : TSLexer),
    scan vs lexer = Some (false, lx) ->
    result_symbol lx = result_symbol lexer.
Proof.
  intros vs [u p s e r] lx. rewrite scan_eq. cbv zeta.
  assert (Hcomment : forall u' p' s',
             comment_matcher (mkLexer u' p' s' e r) = Some (false, lx) ->
             result_symbol lx = r).
  { intros u' p' s'. unfold comment_matcher.
    destruct (lookahead (mkLexer u' p' s' e r) =? HASH).
    - intros H. apply comment_loop_false_result in H.
      now rewrite H, result_symbol_advance.
    - intros H. now inversion H. }
  cbn [result_symbol].
  destruct (vs (ordinal HTML_CONTENT) && _); [discriminate|].
  destruct (vs (ordinal CONTENT)); [|apply Hcomment].
  destruct (Nat.eqb _ 0); [apply Hcomment|discriminate].
Qed.

Lemma failed_scan_keeps_result_symbol_witness :
  result_symbol (mkLexer [] 5 0 (Some 4%nat) (Some HTML_CONTENT))
  = result_symbol (mkLexer (text "#a##}") 0 0 None (Some HTML_CONTENT)).
Proof.
  apply (failed_scan_keeps_result_symbol (symbols [])
           (mkLexer (text "#a##}") 0 0 None (Some HTML_CONTENT))).
  reflexivity.
Defined.

(** ** Where no token starts *)

(** Input at which no block succeeds, whatever is requested: the end of
    input or NUL, an opening angle bracket, or a brace directly followed by
    a brace or a percent sign. *)
Definition no_token_start (rest : list Z) : bool :=
  match rest with
  | [] => true
  | c :: rest' =>
      (c =? 0) || (c =? LANGLE)
      || ((c =? LBRACE)
          && ((hd 0 rest' =? LBRACE) || (hd 0 rest' =? PERCENT)))
  end.

(** X8.  Behind any whitespace, at the end of input, at an opening angle
    bracket and at the openers of an expression or a statement (two braces,
    or a brace and a percent sign) the scan returns no token, whatever is
    requested. *)
Theorem no_token_at_tag_or_directive :
  forall (vs : valid_symbols_t) (ws rest : list Z),
    forallb iswspace ws = true ->
    no_token_start rest = true ->
    scan_token vs (ws ++ rest) = Some None.
Proof.
  intros vs ws rest Hws Hr. rewrite scan_token_eq.
  assert (Hw : iswspace (hd 0 rest) = false).
  { destruct rest as [|c rest']; [reflexivity|]. cbn [no_token_start hd] in *.
    rewrite !orb_true_iff, andb_true_iff in Hr.
    destruct Hr as [[Hr|Hr]|[Hr _]]; apply Z.eqb_eq in Hr; now subst c. }
  rewrite whitespace_run_app, skipn_length_app by assumption.
  f_equal. unfold scan_span, comment_span.
  destruct rest as [|c rest'];
    [cbn -[ordinal]; rewrite andb_false_r; now destruct (vs (ordinal CONTENT))|].
  cbn [no_token_start] in Hr. cbn [html_run content_run]. unfold html_stop.
  rewrite !orb_true_iff, andb_true_iff in Hr.
  destruct Hr as [[Hr|Hr]|[Hr Hd]]; apply Z.eqb_eq in Hr; subst c.
  - cbn -[ordinal]. rewrite andb_false_r. now destruct (vs (ordinal CONTENT)).
  - cbn -[ordinal]. rewrite andb_false_r. now destruct (vs (ordinal CONTENT)).
  - assert (Ho : opens_directive (hd 0 rest') = true).
    { unfold opens_directive. apply orb_true_iff in Hd as [->| ->];
        now rewrite ?orb_true_r. }
    assert (Hh : (hd 0 rest' =? HASH) = false).
    { apply orb_true_iff in Hd as [Hd|Hd]; apply Z.eqb_eq in Hd;
        now rewrite Hd. }
    change (LBRACE =? 0) with false. change (LBRACE =? LBRACE) with true.
    change (LBRACE =? LANGLE) with false. change (LBRACE =? HASH) with false.
    rewrite Ho. cbn [orb Nat.eqb negb fst snd skipn]. rewrite andb_false_r.
    destruct (vs (ordinal CONTENT)); [|reflexivity].
    destruct rest' as [|d rest'']; [reflexivity|].
    cbn [hd] in Hh. now rewrite Hh.
Qed.

Lemma no_token_at_tag_or_directive_witness :
  scan_token (symbols [CONTENT; HTML_CONTENT]) (text " " ++ text "{% if x %}")
  = Some None.
Proof.
  apply (no_token_at_tag_or_directive (symbols [CONTENT; HTML_CONTENT])
           (text " ") (text "{% if x %}")); reflexivity.
Defined.

(** ** Comments without a hash in the body *)

(** X9.  A comment whose body holds no hash and no NUL before its first
    closer is returned whole and ends at that closer: behind a brace when
    the content kind is requested, and on its own when neither the HTML nor
    the content kind is. *)
Theorem plain_comment_recognised :
  forall (vs : valid_symbols_t) (ws mid rest : list Z),
    forallb iswspace ws = true ->
    forallb (fun c => negb (c =? 0) && negb (c =? HASH)) mid = true ->
    (vs (ordinal CONTENT) = true ->
     scan_token vs (ws ++ LBRACE :: HASH :: mid ++ HASH :: RBRACE :: rest)
     = Some (Some (COMMENT, LBRACE :: HASH :: mid ++ [HASH; RBRACE])))
    /\ (vs (ordinal HTML_CONTENT) = false ->
        vs (ordinal CONTENT) = false ->
        scan_token vs (ws ++ HASH :: mid ++ HASH :: RBRACE :: rest)
        = Some (Some (COMMENT, HASH :: mid ++ [HASH; RBRACE]))).
Proof.
  intros vs ws mid rest Hws Hmid.
  pose proof (comment_close_hash_free mid rest Hmid) as Hc.
  assert (Hf : firstn (length mid + 2) (mid ++ HASH :: RBRACE :: rest)
               = mid ++ [HASH; RBRACE]).
  { replace (mid ++ HASH :: RBRACE :: rest)
      with ((mid ++ [HASH; RBRACE]) ++ rest) by now rewrite <- app_assoc.
    replace (length mid + 2)%nat with (length (mid ++ [HASH; RBRACE]))
      by (rewrite length_app; reflexivity).
    apply firstn_length_app. }
  split.
  - intros Hv. rewrite scan_token_eq.
    rewrite whitespace_run_app, skipn_length_app by (auto; reflexivity).
    f_equal. unfold scan_span, comment_span.
    set (body := mid ++ HASH :: RBRACE :: rest) in *.
    assert (Hr : html_run (LBRACE :: HASH :: body) = O) by reflexivity.
    assert (Hk : content_run (LBRACE :: HASH :: body) = (O, 1%nat))
      by reflexivity.
    rewrite Hr, Hk, Hv. cbn [Nat.eqb negb fst snd skipn].
    rewrite andb_false_r, Z.eqb_refl, Hc. cbn [Nat.add firstn].
    now rewrite Hf.
  - intros Hh Hv. rewrite scan_token_eq.
    rewrite whitespace_run_app, skipn_length_app by (auto; reflexivity).
    f_equal. unfold scan_span, comment_span.
    rewrite Hh, Hv. cbn [andb skipn]. rewrite Z.eqb_refl, Hc.
    cbn [Nat.add firstn]. now rewrite Hf.
Qed.

Lemma plain_comment_recognised_witness :
  scan_token (symbols [CONTENT])
    (text " " ++ LBRACE :: HASH :: text " a { b " ++ HASH :: RBRACE
              :: text " tail #}")
  = Some (Some (COMMENT, LBRACE :: HASH :: text " a { b " ++ [HASH; RBRACE]))
  /\ scan_token (symbols [])
       (text " " ++ HASH :: text " a { b " ++ HASH :: RBRACE
                 :: text " tail #}")
     = Some (Some (COMMENT, HASH :: text " a { b " ++ [HASH; RBRACE])).
Proof.
  split.
  - apply (proj1 (plain_comment_recognised (symbols [CONTENT]) (text " ")
                    (text " a { b ") (text " tail #}") eq_refl eq_refl)).
    reflexivity.
  - apply (proj2 (plain_comment_recognised (symbols []) (text " ")
                    (text " a { b ") (text " tail #}") eq_refl eq_refl));
      reflexivity.
Defined.

(** ** HTML text and content *)

Lemma html_run_le_content (u : list Z) :
  (html_run u <= fst (content_run u))%nat.
Proof.
  induction u as [|c u IH]; [apply le_n|]. cbn [html_run content_run].
  unfold html_stop.
  destruct (c =? 0); [apply le_n|].
  destruct (c =? LANGLE); [rewrite orb_true_r; apply Nat.le_0_l|].
  destruct (c =? LBRACE); [apply Nat.le_0_l|]. cbn [orb fst]. lia.
Qed.

Lemma firstn_le_app (A : Type) (a b : nat) (l : list A) :
  (a <= b)%nat ->
  firstn b l = firstn a l ++ firstn (b - a) (skipn a l).
Proof.
  revert b l. induction a as [|a IH]; intros b l Hab.
  - now rewrite Nat.sub_0_r.
  - destruct b as [|b]; [lia|].
    destruct l as [|x l]; [cbn [firstn skipn app]; now rewrite firstn_nil|].
    cbn [firstn skipn app Nat.sub]. f_equal. apply IH. lia.
Qed.

Lemma scan_span_html (vs : valid_symbols_t) (u0 span : list Z) :
  scan_span vs u0 = Some (HTML_CONTENT, span) ->
  html_run u0 <> O /\ span = firstn (html_run u0) u0.
Proof.
  unfold scan_span.
  destruct (vs (ordinal HTML_CONTENT)); cbn [andb].
  - destruct (Nat.eqb (html_run u0) 0) eqn:Hr; cbn [negb].
    + destruct (vs (ordinal CONTENT));
        [destruct (Nat.eqb (fst (content_run u0)) 0); [|discriminate]|];
        intros H; apply comment_span_kind in H; discriminate.
    + apply Nat.eqb_neq in Hr. intros H. inversion H. auto.
  - destruct (vs (ordinal CONTENT));
      [destruct (Nat.eqb (fst (content_run u0)) 0); [|discriminate]|];
      intros H; apply comment_span_kind in H; discriminate.
Qed.

(** X10.  Where the scan returns an HTML token, a scan of the same input
    with the content kind requested and the HTML kind not returns a content
    token, and the HTML span is a prefix of the content span. *)
Theorem html_span_prefix_of_content_span :
  forall (vs vs' : valid_symbols_t) (input span : list Z),
    scan_token vs input = Some (Some (HTML_CONTENT, span)) ->
    vs' (ordinal HTML_CONTENT) = false ->
    vs' (ordinal CONTENT) = true ->
    exists more,
      scan_token vs' input = Some (Some (CONTENT, span ++ more)).
Proof.
  intros vs vs' input span H Hh Hc. rewrite scan_token_eq in *.
  inversion H as [H1]. clear H. apply scan_span_html in H1 as [Hr ->].
  set (u0 := skipn (whitespace_run input) input) in *.
  pose proof (html_run_le_content u0) as Hle.
  unfold scan_span. rewrite Hh, Hc. cbn [andb].
  destruct (Nat.eqb (fst (content_run u0)) 0) eqn:Hm;
    [apply Nat.eqb_eq in Hm; lia|].
  exists (firstn (fst (content_run u0) - html_run u0)
            (skipn (html_run u0) u0)).
  now rewrite <- firstn_le_app.
Qed.

Lemma html_span_prefix_of_content_span_witness :
  exists more,
    scan_token (symbols [CONTENT]) (text "a { b <p>")
    = Some (Some (CONTENT, text "a " ++ more)).
Proof.
  apply (html_span_prefix_of_content_span (symbols [HTML_CONTENT])
           (symbols [CONTENT]) (text "a { b <p>") (text "a "));
    reflexivity.
Defined.

(** ** One token after another *)

Lemma whitespace_run_none (u : list Z) :
  iswspace (hd 0 u) = false -> whitespace_run u = O.
Proof. destruct u as [|c u]; [reflexivity|]. cbn. now intros ->. Qed.

Lemma html_stop_not_white (c : Z) : html_stop c = true -> iswspace c = false.
Proof.
  unfold html_stop. rewrite !orb_true_iff.
  intros [[H|H]|H]; apply Z.eqb_eq in H; now subst c.
Qed.

Lemma content_stop_not_white (u : list Z) :
  content_stop u = true -> iswspace (hd 0 u) = false.
Proof.
  destruct u as [|c u]; [reflexivity|]. cbn [content_stop hd].
  rewrite !orb_true_iff, andb_true_iff.
  intros [[H|H]|[H _]]; apply Z.eqb_eq in H; now subst c.
Qed.

Lemma content_stop_html_stop (u : list Z) :
  content_stop u = true -> html_stop (hd 0 u) = true.
Proof.
  destruct u as [|c u]; [reflexivity|]. cbn [content_stop hd].
  unfold html_stop. rewrite !orb_true_iff, andb_true_iff. tauto.
Qed.

(** The kind of the token a call reports, if it reports one. *)
Definition token_kind (r : option (option (TokenType * list Z)))
  : option TokenType :=
  match r with
  | Some (Some (t, _)) => Some t
  | _ => None
  end.

(** X11.  Scanning again from the end of a token never repeats its kind:
    from the end of an HTML token no scan returns the HTML kind, and from
    the end of a content token a scan returns the comment kind or no token,
    whatever is requested. *)
Theorem rescan_at_token_end :
  forall (vs vs' : valid_symbols_t) (input : list Z) (lx : TSLexer),
    scan vs (lexer_start input) = Some (true, lx) ->
    (result_symbol lx = Some HTML_CONTENT ->
     token_kind (scan_token vs' (skipn (token_end lx) input))
     <> Some HTML_CONTENT)
    /\ (result_symbol lx = Some CONTENT ->
        token_kind (scan_token vs' (skipn (token_end lx) input))
        = Some COMMENT
        \/ token_kind (scan_token vs' (skipn (token_end lx) input)) = None).
Proof.
  intros vs vs' input lx. unfold lexer_start. rewrite scan_eq. cbv zeta.
  cbn [Nat.add].
  set (n := whitespace_run input). set (u0 := skipn n input).
  replace (if Nat.eqb n 0 then O else n) with n by (now destruct n).
  assert (Hskip : forall k, skipn (n + k) input = skipn k u0).
  { intros k. unfold u0. rewrite skipn_skipn. f_equal. lia. }
  assert (Hcomment : forall l,
             comment_matcher l = Some (true, lx) ->
             result_symbol lx = Some COMMENT).
  { intros l Hl. destruct (comment_matcher_result l) as (ok & lx' & E & Hk).
    rewrite E in Hl. inversion Hl. subst. now apply Hk. }
  assert (Hspan : forall k r t sp,
             comment_span k r = Some (t, sp) -> Some t = Some COMMENT).
  { intros k r t sp H. now rewrite (comment_span_kind k r t sp H). }
  destruct (vs (ordinal HTML_CONTENT) && negb (Nat.eqb (html_run u0) 0)).
  - intros H. inversion H. clear H.
    cbn [result_symbol token_end marked_end]. split; [|discriminate].
    intros _. rewrite Hskip.
    destruct (html_prefix u0) as [_ Hs].
    set (r := skipn (html_run u0) u0) in *.
    rewrite scan_token_eq.
    rewrite (whitespace_run_none r (html_stop_not_white _ Hs)).
    cbn [skipn token_kind].
    destruct (scan_span vs' r) as [[t sp]|] eqn:E; [|discriminate].
    intros Ht. inversion Ht. subst t.
    apply scan_span_html in E as [E _]. apply E.
    apply Nat.eqb_eq. now rewrite html_run_0.
  - assert (Hc : forall l,
               comment_matcher l = Some (true, lx) ->
               (result_symbol lx = Some HTML_CONTENT ->
                token_kind (scan_token vs' (skipn (token_end lx) input))
                <> Some HTML_CONTENT)
               /\ (result_symbol lx = Some CONTENT ->
                   token_kind (scan_token vs' (skipn (token_end lx) input))
                   = Some COMMENT
                   \/ token_kind
                        (scan_token vs' (skipn (token_end lx) input))
                      = None)).
    { intros l Hl. apply Hcomment in Hl. rewrite Hl.
      split; discriminate. }
    destruct (vs (ordinal CONTENT)); [|apply Hc].
    destruct (Nat.eqb (fst (content_run u0)) 0); [apply Hc|].
    intros H. inversion H. clear H.
    cbn [result_symbol token_end marked_end]. split; [discriminate|].
    intros _. rewrite Hskip.
    destruct (content_prefix u0) as [_ Hs].
    set (r := skipn (fst (content_run u0)) u0) in *.
    rewrite scan_token_eq.
    rewrite (whitespace_run_none r (content_stop_not_white r Hs)).
    cbn [skipn token_kind]. unfold scan_span.
    assert (Hr : Nat.eqb (html_run r) 0 = true)
      by (rewrite html_run_0; now apply content_stop_html_stop).
    rewrite Hr, andb_false_r, (content_run_stop r Hs). cbn [fst Nat.eqb].
    destruct (vs' (ordinal CONTENT)).
    + destruct (comment_span _ r) as [[t sp]|] eqn:E; [left|now right].
      now apply Hspan in E.
    + destruct (comment_span 0 r) as [[t sp]|] eqn:E; [left|now right].
      now apply Hspan in E.
Qed.

Lemma rescan_at_token_end_witness :
  token_kind
    (scan_token (symbols [CONTENT; HTML_CONTENT])
       (skipn (token_end (mkLexer (text "{ b") 2 0 (Some 2%nat)
                            (Some HTML_CONTENT)))
          (text "a { b")))
  <> Some HTML_CONTENT
  /\ (token_kind
        (scan_token (symbols [CONTENT])
           (skipn (token_end (mkLexer (text "# c #}") 5 0 (Some 4%nat)
                                (Some CONTENT)))
              (text "a{b {# c #}")))
      = Some COMMENT
      \/ token_kind
           (scan_token (symbols [CONTENT])
              (skipn (token_end (mkLexer (text "# c #}") 5 0 (Some 4%nat)
                                   (Some CONTENT)))
                 (text "a{b {# c #}")))
         = None).
Proof.
  split.
  - apply (proj1 (rescan_at_token_end (symbols [HTML_CONTENT])
                    (symbols [CONTENT; HTML_CONTENT]) (text "a { b")
                    (mkLexer (text "{ b") 2 0 (Some 2%nat)
                       (Some HTML_CONTENT))
                    eq_refl)).
    reflexivity.
  - apply (proj2 (rescan_at_token_end (symbols [CONTENT])
                    (symbols [CONTENT]) (text "a{b {# c #}")
                    (mkLexer (text "# c #}") 5 0 (Some 4%nat)
                       (Some CONTENT))
                    eq_refl)).
    reflexivity.
Defined.

(** ** Requesting more *)

(** [vs'] requests at least what [vs] requests of the two kinds the scan
    looks at. *)
Definition requests_more (vs vs' : valid_symbols_t) : Prop :=
  (vs (ordinal HTML_CONTENT) = true -> vs' (ordinal HTML_CONTENT) = true)
  /\ (vs (ordinal CONTENT) = true -> vs' (ordinal CONTENT) = true).

(** X12.  Requesting more kinds never loses a token: input on which the
    scan returns a token still gives a token, possibly of another kind,
    when more is requested. *)
Theorem more_requested_still_a_token :
  forall (vs vs' : valid_symbols_t) (input : list Z) tok,
    requests_more vs vs' ->
    scan_token vs input = Some (Some tok) ->
    exists tok', scan_token vs' input = Some (Some tok').
Proof.
  intros vs vs' input tok [Hh Hc]. rewrite !scan_token_eq.
  set (u0 := skipn (whitespace_run input) input).
  pose proof (html_run_le_content u0) as Hle.
  unfold scan_span.
  destruct (vs (ordinal HTML_CONTENT) && negb (Nat.eqb (html_run u0) 0))
    eqn:E1.
  - apply andb_true_iff in E1 as [E1 E2]. rewrite (Hh E1), E2. eauto.
  - destruct (vs' (ordinal HTML_CONTENT) && negb (Nat.eqb (html_run u0) 0))
      eqn:E1'; [eauto|].
    destruct (vs (ordinal CONTENT)) eqn:E2.
    + rewrite (Hc eq_refl).
      destruct (Nat.eqb (fst (content_run u0)) 0); eauto.
    + intros H. inversion H as [H1]. clear H.
      destruct (vs' (ordinal CONTENT)); [|rewrite H1; eauto].
      destruct (Nat.eqb (fst (content_run u0)) 0) eqn:E3; [|eauto].
      exfalso. apply Nat.eqb_eq in E3. unfold comment_span in H1.
      cbn [skipn] in H1. destruct u0 as [|c u1]; [discriminate|].
      destruct (c =? HASH) eqn:Ec; [|discriminate].
      apply Z.eqb_eq in Ec. subst c. discriminate E3.
Qed.

Lemma more_requested_still_a_token_witness :
  exists tok',
    scan_token (symbols [CONTENT]) (text "# c #} d") = Some (Some tok').
Proof.
  apply (more_requested_still_a_token (symbols []) (symbols [CONTENT])
           (text "# c #} d") (COMMENT, text "# c #}")).
  - split; discriminate.
  - reflexivity.
Defined.
